(** * meshcore-net-bridge: serial framing, reconnect backoff and broker routing

    A shallow embedding of [meshcore_bridge/protocol.py],
    [meshcore_bridge/serial_handler.py], [meshcore_bridge/mqtt_handler.py]
    and the main loop of [meshcore_bridge/main.py].

    Bytes are [Byte.byte]; Python integers that the code computes with are
    [N] (every integer in these modules is non-negative); [str] is
    [String.string].  Python exceptions are explicit: a computation
    either returns, raises, or (for the [while True] loop, which is run on
    fuel) runs out of fuel. *)

From Stdlib Require Import List NArith ZArith Lia Bool Arith String Ascii.
From Stdlib Require Import Strings.Byte.
Import ListNotations.

Local Open Scope N_scope.

(** ** The Python fragment the modules rely on *)

Module Py.

Definition bytes := list byte.

Inductive exn : Type :=
| ValueError
| IndexError
| OverflowError
| SerialException
| BinasciiError.

Inductive result (A : Type) : Type :=
| Returns (a : A)
| Raises (e : exn)
| OutOfFuel.

Arguments Returns {A} a.
Arguments Raises {A} e.
Arguments OutOfFuel {A}.

Definition bind {A B : Type} (c : result A) (k : A -> result B) : result B :=
  match c with
  | Returns a => k a
  | Raises e => Raises e
  | OutOfFuel => OutOfFuel
  end.

(** [len(x)] *)
Definition len {A : Type} (l : list A) : N := N.of_nat (List.length l).

(** [x[i]] for [i >= 0]: raises [IndexError] out of range. *)
Definition getitem {A : Type} (l : list A) (i : N) : result A :=
  match nth_error l (N.to_nat i) with
  | Some a => Returns a
  | None => Raises IndexError
  end.

(** [x[-1]] *)
Definition getlast {A : Type} (l : list A) : result A :=
  match rev l with
  | a :: _ => Returns a
  | [] => Raises IndexError
  end.

(** [x[i:j]] for [0 <= i]; never raises, clips at the end of [x]. *)
Definition slice {A : Type} (l : list A) (i j : N) : list A :=
  firstn (N.to_nat (j - i)) (skipn (N.to_nat i) l).

(** [del x[:n]] *)
Definition del_prefix {A : Type} (l : list A) (n : N) : list A :=
  skipn (N.to_nat n) l.

(** [bytearray.index(b)]: position of the first occurrence, or
    [ValueError]. *)
Fixpoint index (l : bytes) (b : byte) : result N :=
  match l with
  | [] => Raises ValueError
  | x :: tl =>
      if Byte.eqb x b then Returns 0
      else bind (index tl b) (fun i => Returns (N.succ i))
  end.

(** [n.to_bytes(2, "big")]: raises [OverflowError] when [n] does not fit
    in sixteen bits. *)
Definition to_bytes_2_big (n : N) : result bytes :=
  match Byte.of_N (n / 256), Byte.of_N (n mod 256) with
  | Some hi, Some lo => Returns [hi; lo]
  | _, _ => Raises OverflowError
  end.

(** [s.split(sep)] for a one-character separator: never empty. *)
Fixpoint split (s : string) (sep : ascii) : list string :=
  match s with
  | EmptyString => [EmptyString]
  | String c s' =>
      if Ascii.eqb c sep then EmptyString :: split s' sep
      else match split s' sep with
           | hd :: tl => String c hd :: tl
           | [] => [String c EmptyString]
           end
  end.

End Py.

Import Py.

Declare Scope py_scope.
Notation "x <- c ;; k" := (bind c (fun x => k))
  (at level 61, c at next level, right associativity) : py_scope.
Local Open Scope py_scope.

(** ** protocol.py *)

Module Protocol.

Definition FRAME_MAGIC : bytes := [xc0; x3e].
Definition HEADER_SIZE : N := 4.
Definition CHECKSUM_SIZE : N := 2.

(** One pass of the [for b in data] loop of [fletcher16], on the pair
    [(sum1, sum2)]. *)
Definition fletcher16_step (sums : N * N) (b : byte) : N * N :=
  let sum1 := (fst sums + Byte.to_N b) mod 255 in
  let sum2 := (snd sums + sum1) mod 255 in
  (sum1, sum2).

Definition fletcher16 (data : bytes) : N :=
  let '(sum1, sum2) := fold_left fletcher16_step data (0, 0) in
  N.lor (N.shiftl sum2 8) sum1.

Definition encode_frame (payload : bytes) : result bytes :=
  let length := len payload in
  let checksum := fletcher16 payload in
  length_bytes <- to_bytes_2_big length ;;
  checksum_bytes <- to_bytes_2_big checksum ;;
  Returns (FRAME_MAGIC ++ length_bytes ++ payload ++ checksum_bytes).

(** [class FrameDecoder]: the only attribute is the buffer. *)
Record FrameDecoder : Type := mkFrameDecoder { _buffer : bytes }.

(** [FrameDecoder.__init__] *)
Definition init : FrameDecoder := mkFrameDecoder [].

(** How one pass of the [while True] body of [feed] ends: at a [break]
    or at the bottom of the body / a [continue], with the buffer and the
    [frames] list as they are at that point. *)
Inductive pass : Type :=
| Break (buffer : bytes) (frames : list bytes)
| Continue (buffer : bytes) (frames : list bytes).

(** The body of the [while True] loop of [FrameDecoder.feed]. *)
Definition feed_body (buffer : bytes) (frames : list bytes) : result pass :=
  magic0 <- getitem FRAME_MAGIC 0 ;;
  match index buffer magic0 with
  | Raises ValueError => Returns (Break [] frames)
  | Raises e => Raises e
  | OutOfFuel => OutOfFuel
  | Returns start =>
      let buffer := if 0 <? start then del_prefix buffer start else buffer in
      if len buffer <? 2 then Returns (Break buffer frames) else
      second <- getitem buffer 1 ;;
      magic1 <- getitem FRAME_MAGIC 1 ;;
      if negb (Byte.eqb second magic1)
      then Returns (Continue (del_prefix buffer 1) frames) else
      if len buffer <? HEADER_SIZE then Returns (Break buffer frames) else
      len_high <- getitem buffer 2 ;;
      len_low <- getitem buffer 3 ;;
      let length := N.lor (N.shiftl (Byte.to_N len_high) 8) (Byte.to_N len_low) in
      let frame_size := HEADER_SIZE + length + CHECKSUM_SIZE in
      if len buffer <? frame_size then Returns (Break buffer frames) else
      let payload := slice buffer HEADER_SIZE (HEADER_SIZE + length) in
      checksum_high <- getitem buffer (HEADER_SIZE + length) ;;
      checksum_low <- getitem buffer (HEADER_SIZE + length + 1) ;;
      let received_checksum :=
        N.lor (N.shiftl (Byte.to_N checksum_high) 8) (Byte.to_N checksum_low) in
      let expected_checksum := fletcher16 payload in
      let frames :=
        if received_checksum =? expected_checksum
        then frames ++ [payload] else frames in
      Returns (Continue (del_prefix buffer frame_size) frames)
  end.

(** The [while True] loop, on fuel. *)
Fixpoint feed_loop (fuel : nat) (buffer : bytes) (frames : list bytes)
  : result (bytes * list bytes) :=
  match fuel with
  | O => OutOfFuel
  | S fuel' =>
      p <- feed_body buffer frames ;;
      match p with
      | Break buffer' frames' => Returns (buffer', frames')
      | Continue buffer' frames' => feed_loop fuel' buffer' frames'
      end
  end.

(** [FrameDecoder.feed]: the new decoder state and the returned list.
    Every pass that does not break removes at least one byte, so one unit
    of fuel per buffered byte, and one for the last pass, is enough
    ([feed_returns] below). *)
Definition feed (self : FrameDecoder) (data : bytes)
  : result (FrameDecoder * list bytes) :=
  let buffer := _buffer self ++ data in
  r <- feed_loop (S (List.length buffer)) buffer [] ;;
  Returns (mkFrameDecoder (fst r), snd r).

(** Successive [feed] calls on one decoder; the returned lists are
    concatenated. *)
Fixpoint feed_chunks (self : FrameDecoder) (chunks : list bytes)
  : result (FrameDecoder * list bytes) :=
  match chunks with
  | [] => Returns (self, [])
  | data :: rest =>
      r <- feed self data ;;
      r' <- feed_chunks (fst r) rest ;;
      Returns (fst r', snd r ++ snd r')
  end.

End Protocol.

Import Protocol.

(** ** serial_handler.py *)

Module SerialHandler.

Definition RECONNECT_DELAY_MIN : N := 1.
Definition RECONNECT_DELAY_MAX : N := 60.

(** The [serial.Serial] object: the handler only looks at [is_open]. *)
Record Serial : Type := mkSerial { is_open : bool }.

Record SerialHandler : Type := mkSerialHandler {
  _port : option Serial;
  _decoder : FrameDecoder;
  _reconnect_delay : N
}.

(** [SerialHandler.__init__] *)
Definition new : SerialHandler :=
  mkSerialHandler None init RECONNECT_DELAY_MIN.

Definition connected (self : SerialHandler) : bool :=
  match _port self with
  | Some port => is_open port
  | None => false
  end.

(** [SerialHandler.open].  [device] says whether the driver can open the
    port at this moment: [serial.Serial(...)] returns the port or raises
    [SerialException]. *)
Definition open (device : bool) (self : SerialHandler) : result SerialHandler :=
  port <- (if device then Returns (mkSerial true) else Raises SerialException) ;;
  Returns (mkSerialHandler (Some port) (_decoder self) RECONNECT_DELAY_MIN).

(** [SerialHandler.close] *)
Definition close (self : SerialHandler) : SerialHandler :=
  mkSerialHandler None (_decoder self) (_reconnect_delay self).

(** What a call of [try_reconnect] leaves behind: the handler, the
    seconds passed to [time.sleep], and the returned flag. *)
Record attempt : Type := mkAttempt {
  handler : SerialHandler;
  slept : N;
  reconnected : bool
}.

(** [SerialHandler.try_reconnect] *)
Definition try_reconnect (device : bool) (self : SerialHandler) : result attempt :=
  let self := close self in
  let self := mkSerialHandler (_port self) init (_reconnect_delay self) in
  let delay := _reconnect_delay self in
  match open device self with
  | Returns self' => Returns (mkAttempt self' delay true)
  | Raises SerialException =>
      let self' :=
        mkSerialHandler (_port self) (_decoder self)
          (N.min (_reconnect_delay self * 2) RECONNECT_DELAY_MAX) in
      Returns (mkAttempt self' delay false)
  | Raises e => Raises e
  | OutOfFuel => OutOfFuel
  end.

(** Successive [try_reconnect] calls, one per entry of [devices]; the
    result is the final handler and the delays slept, in order. *)
Fixpoint reconnect_attempts (devices : list bool) (self : SerialHandler)
  : result (SerialHandler * list N) :=
  match devices with
  | [] => Returns (self, [])
  | device :: rest =>
      a <- try_reconnect device self ;;
      r <- reconnect_attempts rest (handler a) ;;
      Returns (fst r, slept a :: snd r)
  end.

End SerialHandler.

(** ** mqtt_handler.py *)

Module MqttHandler.

Record MQTTMessage : Type := mkMessage { topic : string; payload : bytes }.

Record MqttHandler : Type := mkMqttHandler {
  _root_topic : string;
  _mesh_id : string;
  _connected : bool
}.

(** What [_handle_message] does to the outside: log records and calls of
    the [on_packet] callback (in the bridge, [SerialHandler.write_packet]). *)
Inductive effect : Type :=
| LogWarning (about : string)
| LogDebug (source_mesh : string) (size : N)
| OnPacket (packet : bytes).

(** [MqttHandler._rx_topic] *)
Definition _rx_topic (self : MqttHandler) : string :=
  (_root_topic self ++ "/" ++ _mesh_id self)%string.

Section Handler.

(** [base64.b64decode] of the Python library: returns the decoded
    bytes or raises. *)
Variable b64decode : bytes -> result bytes.

(** [MqttHandler._handle_message]: the effects performed before the
    handler returns.  [except Exception] absorbs whatever the decoder
    raises. *)
Definition _handle_message (self : MqttHandler) (msg : MQTTMessage)
  : result (list effect) :=
  let parts := split (topic msg) "/" in
  if len parts <? 2 then Returns [] else
  source_mesh <- getlast parts ;;
  if String.eqb source_mesh (_mesh_id self) then Returns [] else
  match b64decode (payload msg) with
  | Raises _ => Returns [LogWarning (topic msg)]
  | OutOfFuel => OutOfFuel
  | Returns packet =>
      Returns [LogDebug source_mesh (len packet); OnPacket packet]
  end.

End Handler.

End MqttHandler.

(** ** Specification-side definitions *)

Module Spec.

(** Fletcher-16 as the specification words it, over unsigned 8-bit
    values and for a modulus [m]: two running sums from 0,
    [sum1 = (sum1 + b) mod m], [sum2 = (sum2 + sum1) mod m]. *)
Fixpoint fletcher_sums (m : N) (data : list N) (sum1 sum2 : N) : N * N :=
  match data with
  | [] => (sum1, sum2)
  | b :: rest =>
      let sum1' := (sum1 + b) mod m in
      let sum2' := (sum2 + sum1') mod m in
      fletcher_sums m rest sum1' sum2'
  end.

Definition fletcher_ref (m : N) (data : bytes) : N :=
  let '(sum1, sum2) := fletcher_sums m (map Byte.to_N data) 0 0 in
  N.lor (N.shiftl sum2 8) sum1.

(** Sum of the byte values. *)
Definition total (data : bytes) : N :=
  fold_right (fun b acc => Byte.to_N b + acc) 0 data.

(** Sum of the byte values, each weighted by the number of bytes from it
    to the end of the data (itself included). *)
Fixpoint weighted (data : bytes) : N :=
  match data with
  | [] => 0
  | b :: rest => (len rest + 1) * Byte.to_N b + weighted rest
  end.

(** The frames of several payloads, one after the other. *)
Fixpoint encode_frames (payloads : list bytes) : result bytes :=
  match payloads with
  | [] => Returns []
  | p :: rest =>
      frame <- encode_frame p ;;
      stream <- encode_frames rest ;;
      Returns (frame ++ stream)
  end.

(** A byte string with the byte at offset [i] replaced by [b] (left as
    it is when [i] is past the end). *)
Definition replace_at (l : bytes) (i : N) (b : byte) : bytes :=
  match skipn (N.to_nat i) l with
  | [] => l
  | _ :: tl => firstn (N.to_nat i) l ++ b :: tl
  end.

(** No [0xC0] of [junk] is immediately followed by [0x3E]. *)
Fixpoint no_magic (junk : bytes) : bool :=
  match junk with
  | [] => true
  | a :: tl =>
      match tl with
      | [] => true
      | b :: _ => negb (Byte.eqb a xc0 && Byte.eqb b x3e) && no_magic tl
      end
  end.

(** The payload length a header announces. *)
Definition announced (len_high len_low : byte) : N :=
  Byte.to_N len_high * 256 + Byte.to_N len_low.

(** The buffers a decoder can be left with: nothing, a lone start byte,
    a magic with an incomplete header, or a header whose frame is not
    complete yet. *)
Inductive waiting : bytes -> Prop :=
| waiting_empty : waiting []
| waiting_start : waiting [xc0]
| waiting_header tl : len tl < 2 -> waiting (xc0 :: x3e :: tl)
| waiting_frame hi lo tl :
    len tl < announced hi lo + 2 -> waiting (xc0 :: x3e :: hi :: lo :: tl).

(** The ways a buffer can look to one pass of the loop, after the bytes
    before the first [0xC0] ([junk]). *)
Inductive shape : bytes -> Prop :=
| shape_no_start junk :
    ~ In xc0 junk -> shape junk
| shape_lone_start junk :
    ~ In xc0 junk -> shape (junk ++ [xc0])
| shape_false_start junk x tl :
    ~ In xc0 junk -> x <> x3e -> shape (junk ++ xc0 :: x :: tl)
| shape_short_header junk tl :
    ~ In xc0 junk -> len tl < 2 -> shape (junk ++ xc0 :: x3e :: tl)
| shape_partial_frame junk hi lo tl :
    ~ In xc0 junk -> len tl < announced hi lo + 2 ->
    shape (junk ++ xc0 :: x3e :: hi :: lo :: tl)
| shape_whole_frame junk hi lo p ch cl rest :
    ~ In xc0 junk -> len p = announced hi lo ->
    shape (junk ++ xc0 :: x3e :: hi :: lo :: p ++ ch :: cl :: rest).

(** A complete frame at the front of a buffer, whatever its checksum. *)
Definition frame_at_front (buffer : bytes) : Prop :=
  exists hi lo p ch cl rest,
    len p = announced hi lo
    /\ buffer = xc0 :: x3e :: hi :: lo :: p ++ ch :: cl :: rest.

(** "Changing byte [i] of the payload [p] to [b'], the stored checksum
    left as it is, makes the decoder drop that frame and still return the
    payload [q] of the frame that follows." *)
Definition corruption_dropped (p : bytes) (i : N) (b' : byte) (q : bytes) : Prop :=
  forall (f g : bytes) (b : byte),
    encode_frame p = Returns f -> encode_frame q = Returns g ->
    getitem p i = Returns b -> b' <> b ->
    feed init (replace_at f (HEADER_SIZE + i) b' ++ g) = Returns (init, [q]).

(** [s] contains the character [c]. *)
Fixpoint has_char (s : string) (c : ascii) : bool :=
  match s with
  | EmptyString => false
  | String x s' => Ascii.eqb x c || has_char s' c
  end.

(** The delay the backoff has reached after [k] doublings from one
    second. *)
Definition backoff (k : nat) : N := N.min (2 ^ N.of_nat k) 60.

(** The value of a character of the standard base-64 alphabet. *)
Definition b64_digit (c : byte) : option N :=
  let n := Byte.to_N c in
  if (65 <=? n) && (n <=? 90) then Some (n - 65)
  else if (97 <=? n) && (n <=? 122) then Some (n - 71)
  else if (48 <=? n) && (n <=? 57) then Some (n + 4)
  else if n =? 43 then Some 62
  else if n =? 47 then Some 63
  else None.

Definition octet (n : N) : byte :=
  match Byte.of_N (n mod 256) with
  | Some b => b
  | None => x00
  end.

(** An instance of the library's decoder for concrete runs: canonical
    base-64 text only (groups of four characters of the alphabet, [=]
    padding in the last group).  Python's own [b64decode] also raises on
    text that is cut short, as in the examples below; it is more lenient
    about characters outside the alphabet. *)
Fixpoint b64decode_strict (s : bytes) : result bytes :=
  match s with
  | [] => Returns []
  | a :: b :: c :: d :: rest =>
      match b64_digit a, b64_digit b, b64_digit c, b64_digit d with
      | Some va, Some vb, Some vc, Some vd =>
          tail <- b64decode_strict rest ;;
          Returns (octet (va * 4 + vb / 16) :: octet (vb * 16 + vc / 4)
                     :: octet (vc * 64 + vd) :: tail)
      | Some va, Some vb, Some vc, None =>
          match rest with
          | [] => if Byte.eqb d x3d
                  then Returns [octet (va * 4 + vb / 16); octet (vb * 16 + vc / 4)]
                  else Raises BinasciiError
          | _ :: _ => Raises BinasciiError
          end
      | Some va, Some vb, None, None =>
          match rest with
          | [] => if Byte.eqb c x3d && Byte.eqb d x3d
                  then Returns [octet (va * 4 + vb / 16)]
                  else Raises BinasciiError
          | _ :: _ => Raises BinasciiError
          end
      | _, _, _, _ => Raises BinasciiError
      end
  | _ => Raises BinasciiError
  end.

(** The loop with the fuel [feed] gives it. *)
Definition run (buffer : bytes) (frames : list bytes) : result (bytes * list bytes) :=
  feed_loop (S (List.length buffer)) buffer frames.

(** What is left of a [while True] pass once it has ended. *)
Definition resume (p : pass) : result (bytes * list bytes) :=
  match p with
  | Break buffer frames => Returns (buffer, frames)
  | Continue buffer frames => run buffer frames
  end.

End Spec.

Import Spec.

(** ** serial_handler.py: the read and the write path *)

Module SerialIO.

Import SerialHandler.

(** What a method can leave with: an exception of [Py.exn], or the
    [SerialDisconnected] that serial_handler.py declares. *)
Inductive raised : Type :=
| Builtin (e : exn)
| SerialDisconnected.

(** How a call ends.  The handler a method was working on is given
    beside the outcome, as the call left it. *)
Inductive outcome (A : Type) : Type :=
| Done (a : A)
| Raised (e : raised)
| Diverged.

Arguments Done {A} a.
Arguments Raised {A} e.
Arguments Diverged {A}.

(** [SerialHandler.read_packets].  [incoming] is what
    [self._port.read(self._port.in_waiting or 1)] does at this call: the
    bytes it returns or the exception it raises.  Log records are left
    out, as in [SerialHandler]. *)
Definition read_packets (incoming : result bytes) (self : SerialHandler)
  : SerialHandler * outcome (list bytes) :=
  if negb (connected self) then (self, Done []) else
  match incoming with
  | Raises SerialException => (self, Raised SerialDisconnected)
  | Raises e => (self, Raised (Builtin e))
  | OutOfFuel => (self, Diverged)
  | Returns data =>
      match data with
      | [] => (self, Done [])
      | _ :: _ =>
          match feed (_decoder self) data with
          | Returns (decoder, packets) =>
              (mkSerialHandler (_port self) decoder (_reconnect_delay self),
               Done packets)
          | Raises e => (self, Raised (Builtin e))
          | OutOfFuel => (self, Diverged)
          end
      end
  end.

(** Successive [read_packets] calls, one per entry of [reads]; the
    returned lists are concatenated, and the first call that raises ends
    the sequence. *)
Fixpoint read_all (reads : list (result bytes)) (self : SerialHandler)
  : SerialHandler * outcome (list bytes) :=
  match reads with
  | [] => (self, Done [])
  | incoming :: rest =>
      match read_packets incoming self with
      | (self', Done packets) =>
          match read_all rest self' with
          | (self'', Done packets') => (self'', Done (packets ++ packets'))
          | other => other
          end
      | other => other
      end
  end.

(** A call of [self._port.write]: the frame handed over, and whether the
    driver took it ([false]: it raised [SerialException]). *)
Inductive port_call : Type :=
| PortWrite (frame : bytes) (accepted : bool).

(** [SerialHandler.write_packet].  [written] is what [self._port.write]
    does at this call.  The lock only orders concurrent writers and is
    not modelled. *)
Definition write_packet (written : result unit) (self : SerialHandler)
           (payload : bytes) : list port_call * outcome unit :=
  if negb (connected self) then ([], Done tt) else
  match encode_frame payload with
  | Returns frame =>
      match written with
      | Returns _ => ([PortWrite frame true], Done tt)
      | Raises SerialException => ([PortWrite frame false], Done tt)
      | Raises e => ([PortWrite frame false], Raised (Builtin e))
      | OutOfFuel => ([], Diverged)
      end
  | Raises e => ([], Raised (Builtin e))
  | OutOfFuel => ([], Diverged)
  end.

(** Successive [write_packet] calls, one per payload, on a port that
    takes every frame; the first call that raises ends the sequence. *)
Fixpoint write_all (self : SerialHandler) (payloads : list bytes)
  : list port_call * outcome unit :=
  match payloads with
  | [] => ([], Done tt)
  | payload :: rest =>
      match write_packet (Returns tt) self payload with
      | (calls, Done _) =>
          let r := write_all self rest in (calls ++ fst r, snd r)
      | other => other
      end
  end.

(** The bytes the port has taken, in order. *)
Fixpoint wire (calls : list port_call) : bytes :=
  match calls with
  | [] => []
  | PortWrite frame true :: rest => frame ++ wire rest
  | PortWrite _ false :: rest => wire rest
  end.

End SerialIO.

(** ** mqtt_handler.py: publishing and the connection callbacks *)

Module MqttLink.

Import MqttHandler.

(** Calls on the paho client. *)
Inductive client_call : Type :=
| Publish (topic : string) (message : bytes)
| Subscribe (pattern : string).

(** [MqttHandler._subscribe_pattern] *)
Definition _subscribe_pattern (self : MqttHandler) : string :=
  (_root_topic self ++ "/+")%string.

Section Encoder.

(** [base64.b64encode] of the Python library.  The text it returns is
    ASCII, so [.decode("ascii")] and the client's encoding of the message
    leave its bytes as they are. *)
Variable b64encode : bytes -> bytes.

(** [MqttHandler.publish_packet] *)
Definition publish_packet (self : MqttHandler) (payload : bytes) : list client_call :=
  if negb (_connected self) then []
  else [Publish (_rx_topic self) (b64encode payload)].

End Encoder.

(** [MqttHandler._handle_connect]; [reason_code] is the value the
    callback compares with 0. *)
Definition _handle_connect (self : MqttHandler) (reason_code : N)
  : MqttHandler * list client_call :=
  if reason_code =? 0
  then (mkMqttHandler (_root_topic self) (_mesh_id self) true,
        [Subscribe (_subscribe_pattern self)])
  else (mkMqttHandler (_root_topic self) (_mesh_id self) false, []).

(** [MqttHandler._handle_disconnect] *)
Definition _handle_disconnect (self : MqttHandler) (reason_code : N) : MqttHandler :=
  mkMqttHandler (_root_topic self) (_mesh_id self) false.

(** The connection callbacks the client makes, in the order it makes
    them. *)
Inductive callback : Type :=
| on_connect (reason_code : N)
| on_disconnect (reason_code : N).

Fixpoint callbacks (events : list callback) (self : MqttHandler)
  : MqttHandler * list client_call :=
  match events with
  | [] => (self, [])
  | on_connect reason_code :: rest =>
      let r := _handle_connect self reason_code in
      let r' := callbacks rest (fst r) in
      (fst r', snd r ++ snd r')
  | on_disconnect reason_code :: rest =>
      callbacks rest (_handle_disconnect self reason_code)
  end.

End MqttLink.

(** ** main.py: the bridge as [run] wires it *)

Module Main.

Import SerialHandler SerialIO MqttHandler MqttLink.

(** The two handlers [run] creates. *)
Record Bridge : Type := mkBridge {
  serial_handler : SerialHandler;
  mqtt_handler : MqttHandler
}.

(** What a pass of the main loop does to the outside. *)
Inductive action : Type :=
| Sleep (seconds : N)
| Client (c : client_call).

Section Codec.

Variable b64encode : bytes -> bytes.
Variable b64decode : bytes -> result bytes.

(** What the paho client does at a call made on it: it returns, or it
    raises ([publish] raises [ValueError] for a topic it does not accept,
    one with a wildcard in it for instance). *)
Variable client : client_call -> result unit.

(** Calls on the client carried out one after the other.  None of them
    is made inside a [try] of mqtt_handler.py, so the first that raises
    ends the sequence; the call itself is still on record. *)
Fixpoint client_calls (calls : list client_call) : list action * outcome unit :=
  match calls with
  | [] => ([], Done tt)
  | c :: rest =>
      match client c with
      | Returns _ =>
          let r := client_calls rest in (Client c :: fst r, snd r)
      | Raises e => ([Client c], Raised (Builtin e))
      | OutOfFuel => ([Client c], Diverged)
      end
  end.

(** One pass of the [while not shutdown_requested] loop of [run] that
    polls the serial port.  An outcome other than [Done] leaves the loop
    for the [except Exception] of [run]: the [try] inside the loop absorbs
    [SerialDisconnected] only. *)
Definition main_iteration (device : bool) (incoming : result bytes) (bridge : Bridge)
  : Bridge * list action * outcome unit :=
  let serial := serial_handler bridge in
  let mqtt := mqtt_handler bridge in
  if negb (connected serial) then
    match try_reconnect device serial with
    | Returns a => (mkBridge (handler a) mqtt, [Sleep (slept a)], Done tt)
    | Raises e => (bridge, [], Raised (Builtin e))
    | OutOfFuel => (bridge, [], Diverged)
    end
  else
    match read_packets incoming serial with
    | (serial', Done packets) =>
        let r := client_calls (flat_map (publish_packet b64encode mqtt) packets) in
        (mkBridge serial' mqtt, fst r, snd r)
    | (serial', Raised SerialDisconnected) => (mkBridge serial' mqtt, [], Done tt)
    | (serial', Raised e) => (mkBridge serial' mqtt, [], Raised e)
    | (serial', Diverged) => (mkBridge serial' mqtt, [], Diverged)
    end.

(** The calls of [on_packet], which [run] sets to
    [serial_handler.write_packet], among the effects of
    [_handle_message]; an exception of [write_packet] ends the handler. *)
Fixpoint on_packet_calls (written : result unit) (serial : SerialHandler)
         (effects : list effect) : list port_call * outcome unit :=
  match effects with
  | [] => ([], Done tt)
  | OnPacket packet :: rest =>
      match write_packet written serial packet with
      | (calls, Done _) =>
          let r := on_packet_calls written serial rest in
          (calls ++ fst r, snd r)
      | other => other
      end
  | _ :: rest => on_packet_calls written serial rest
  end.

(** The client's [on_message] callback: [MqttHandler._handle_message]
    with [on_packet] bound as in [run]. *)
Definition on_message (written : result unit) (bridge : Bridge) (msg : MQTTMessage)
  : list port_call * outcome unit :=
  match _handle_message b64decode (mqtt_handler bridge) msg with
  | Returns effects => on_packet_calls written (serial_handler bridge) effects
  | Raises e => ([], Raised (Builtin e))
  | OutOfFuel => ([], Diverged)
  end.

End Codec.

End Main.

(** ** Further specification-side definitions *)

Module Facts.

(** [f] is a run of consecutive bytes of [stream]. *)
Definition occurs (f stream : bytes) : Prop :=
  exists pre post, stream = pre ++ f ++ post.

(** The property of a returned payload: it fits the length field, and its
    frame is a run of bytes of the stream. *)
Definition framed_in (stream : bytes) (p : bytes) : Prop :=
  len p <= 65535 /\ exists f, encode_frame p = Returns f /\ occurs f stream.

(** A connection callback that reports a connection made. *)
Definition successful (e : MqttLink.callback) : bool :=
  match e with
  | MqttLink.on_connect reason_code => reason_code =? 0
  | MqttLink.on_disconnect _ => false
  end.

(** The character of the standard base-64 alphabet for a six-bit value. *)
Definition b64_char (n : N) : byte :=
  octet (if n <? 26 then n + 65
         else if n <? 52 then n + 71
         else if n <? 62 then n - 4
         else if n =? 62 then 43 else 47).

(** An instance of the library's encoder for concrete runs: standard
    base-64 with [=] padding. *)
Fixpoint b64encode_std (data : bytes) : bytes :=
  match data with
  | [] => []
  | a :: [] =>
      let x := Byte.to_N a in
      [b64_char (x / 4); b64_char ((x mod 4) * 16); x3d; x3d]
  | a :: b :: [] =>
      let x := Byte.to_N a in
      let y := Byte.to_N b in
      [b64_char (x / 4); b64_char ((x mod 4) * 16 + y / 16);
       b64_char ((y mod 16) * 4); x3d]
  | a :: b :: c :: rest =>
      let x := Byte.to_N a in
      let y := Byte.to_N b in
      let z := Byte.to_N c in
      b64_char (x / 4) :: b64_char ((x mod 4) * 16 + y / 16)
        :: b64_char ((y mod 16) * 4 + z / 64) :: b64_char (z mod 64)
        :: b64encode_std rest
  end.

(** [base64.b64decode] of CPython as [_handle_message] calls it, that is
    [binascii.a2b_base64] with strict mode off, on the state of its loop:
    the position in the group of four, the bits left over, the pads seen
    and the bytes put out.  A character outside the alphabet is skipped; a
    [=] counts only from the third position of a group on, and ends the
    decoding when it completes the group; at the end of the data an
    unfinished group is an error. *)
Fixpoint a2b_base64 (ascii_data : bytes) (quad_pos leftchar pads : N)
         (bin_data : bytes) : result bytes :=
  match ascii_data with
  | [] => if quad_pos =? 0 then Returns bin_data else Raises BinasciiError
  | this_ch :: rest =>
      if Byte.eqb this_ch x3d then
        if (2 <=? quad_pos) && (4 <=? quad_pos + (pads + 1))
        then Returns bin_data
        else a2b_base64 rest quad_pos leftchar
               (if 2 <=? quad_pos then pads + 1 else pads) bin_data
      else
        match b64_digit this_ch with
        | None => a2b_base64 rest quad_pos leftchar pads bin_data
        | Some v =>
            if quad_pos =? 0 then a2b_base64 rest 1 v 0 bin_data
            else if quad_pos =? 1 then
              a2b_base64 rest 2 (N.land v 15) 0
                (bin_data ++ [octet (N.lor (N.shiftl leftchar 2) (N.shiftr v 4))])
            else if quad_pos =? 2 then
              a2b_base64 rest 3 (N.land v 3) 0
                (bin_data ++ [octet (N.lor (N.shiftl leftchar 4) (N.shiftr v 2))])
            else
              a2b_base64 rest 0 0 0
                (bin_data ++ [octet (N.lor (N.shiftl leftchar 6) v)])
        end
  end.

Definition b64decode_python (s : bytes) : result bytes := a2b_base64 s 0 0 0 [].

(** Well-formed base-64: groups of four characters of the alphabet, with
    [=] padding in the last group only. *)
Definition well_formed_base64 (s : bytes) : bool :=
  match b64decode_strict s with
  | Returns _ => true
  | _ => false
  end.

(** "A message from another identity whose payload is not well-formed
    base-64 is dropped: the handler returns and does not call
    [on_packet]", of the handler with Python's decoder. *)
Definition malformed_dropped (self : MqttHandler.MqttHandler)
           (msg : MqttHandler.MQTTMessage) : Prop :=
  forall source,
    getlast (split (MqttHandler.topic msg) "/") = Returns source ->
    source <> MqttHandler._mesh_id self ->
    well_formed_base64 (MqttHandler.payload msg) = false ->
    exists effects,
      MqttHandler._handle_message b64decode_python self msg = Returns effects
      /\ forall packet, ~ In (MqttHandler.OnPacket packet) effects.

(** An instance of the client for concrete runs, after paho's checks of
    its arguments: [publish] raises [ValueError] for an empty topic, a
    topic with a wildcard ([+] or [#]) or of more than 65535 bytes, and a
    message of more than 268435455 bytes; otherwise a call returns. *)
Definition paho_client (c : MqttLink.client_call) : result unit :=
  match c with
  | MqttLink.Publish topic message =>
      if (String.length topic =? 0)%nat
         || has_char topic "+" || has_char topic "#"
         || (65535 <? N.of_nat (String.length topic))
         || (268435455 <? len message)
      then Raises ValueError
      else Returns tt
  | MqttLink.Subscribe _ => Returns tt
  end.

End Facts.

Import Facts.

(** ** Integers and bytes *)

Section Numbers.

Lemma lor_shiftl_8 (a b : N) :
  b < 256 -> N.lor (N.shiftl a 8) b = a * 256 + b.
Proof.
  intros Hb.
  assert (Hl : N.land (N.shiftl a 8) b = 0).
  { apply N.bits_inj_iff. intros n. rewrite N.land_spec, N.bits_0.
    destruct (N.lt_ge_cases n 8) as [Hn | Hn].
    - rewrite N.shiftl_spec_low by exact Hn. reflexivity.
    - destruct (N.eq_dec b 0) as [-> | Hb0].
      + rewrite N.bits_0. apply andb_false_r.
      + rewrite (N.bits_above_log2 b n), andb_false_r; [reflexivity|].
        apply N.lt_le_trans with 8; [|exact Hn].
        apply N.log2_lt_pow2; [lia | exact Hb]. }
  rewrite <- N.lxor_lor, <- N.add_nocarry_lxor by exact Hl.
  rewrite N.shiftl_mul_pow2. reflexivity.
Qed.

Lemma to_N_lt_256 (b : byte) : Byte.to_N b < 256.
Proof. pose proof (Byte.to_N_bounded b). lia. Qed.

Lemma big_endian_16 (hi lo : byte) :
  N.lor (N.shiftl (Byte.to_N hi) 8) (Byte.to_N lo) = announced hi lo.
Proof. apply lor_shiftl_8, to_N_lt_256. Qed.

Lemma to_bytes_2_big_fits (n : N) :
  n <= 65535 ->
  exists hi lo, to_bytes_2_big n = Returns [hi; lo] /\ announced hi lo = n.
Proof.
  intros Hn. unfold to_bytes_2_big.
  destruct (Byte.of_N (n / 256)) as [hi|] eqn:Ehi.
  2:{ apply Byte.of_N_None_iff in Ehi.
      assert (n / 256 < 256) by (apply N.Div0.div_lt_upper_bound; lia). lia. }
  destruct (Byte.of_N (n mod 256)) as [lo|] eqn:Elo.
  2:{ apply Byte.of_N_None_iff in Elo.
      assert (n mod 256 < 256) by (apply N.mod_lt; lia). lia. }
  exists hi, lo. split; [reflexivity|].
  apply Byte.to_of_N in Ehi, Elo. unfold announced. rewrite Ehi, Elo.
  rewrite (N.div_mod n 256) at 3 by lia. lia.
Qed.

Lemma to_bytes_2_big_overflow (n : N) :
  65535 < n -> to_bytes_2_big n = Raises OverflowError.
Proof.
  intros Hn. unfold to_bytes_2_big.
  assert (E : Byte.of_N (n / 256) = None).
  { apply Byte.of_N_None_iff.
    assert (256 <= n / 256) by (apply N.div_le_lower_bound; lia). lia. }
  rewrite E. reflexivity.
Qed.

End Numbers.

(** ** Lists as Python sequences *)

Section Sequences.

Lemma len_app {A : Type} (l1 l2 : list A) : len (l1 ++ l2) = len l1 + len l2.
Proof. unfold len. rewrite length_app. lia. Qed.

Lemma len_cons {A : Type} (a : A) (l : list A) : len (a :: l) = len l + 1.
Proof. unfold len. simpl List.length. lia. Qed.

Lemma len_nil {A : Type} : len (@nil A) = 0.
Proof. reflexivity. Qed.

Lemma del_prefix_app {A : Type} (l1 l2 : list A) :
  del_prefix (l1 ++ l2) (len l1) = l2.
Proof.
  unfold del_prefix, len. rewrite Nat2N.id.
  rewrite skipn_app, skipn_all, Nat.sub_diag. reflexivity.
Qed.

Lemma del_prefix_0 {A : Type} (l : list A) : del_prefix l 0 = l.
Proof. reflexivity. Qed.

Lemma slice_app {A : Type} (l1 l2 l3 : list A) :
  slice (l1 ++ l2 ++ l3) (len l1) (len l1 + len l2) = l2.
Proof.
  unfold slice. fold (del_prefix (l1 ++ l2 ++ l3) (len l1)).
  rewrite del_prefix_app.
  replace (len l1 + len l2 - len l1) with (len l2) by lia.
  unfold len. rewrite Nat2N.id, firstn_app, firstn_all, Nat.sub_diag.
  simpl. apply app_nil_r.
Qed.

Lemma getitem_app {A : Type} (l1 l2 : list A) (a : A) :
  getitem (l1 ++ a :: l2) (len l1) = Returns a.
Proof.
  unfold getitem, len. rewrite Nat2N.id, nth_error_app2 by lia.
  rewrite Nat.sub_diag. reflexivity.
Qed.

Lemma index_absent (l : bytes) (b : byte) :
  ~ In b l -> index l b = Raises ValueError.
Proof.
  induction l as [|x l IH]; intros Hn; simpl.
  - reflexivity.
  - destruct (Byte.eqb x b) eqn:E.
    + exfalso. apply Hn. left. apply Byte.byte_dec_bl. exact E.
    + rewrite IH; [reflexivity|]. intros H. apply Hn. right. exact H.
Qed.

Lemma index_first (junk tl : bytes) (b : byte) :
  ~ In b junk -> index (junk ++ b :: tl) b = Returns (len junk).
Proof.
  induction junk as [|x junk IH]; intros Hn; simpl.
  - rewrite (Byte.byte_dec_lb eq_refl). reflexivity.
  - destruct (Byte.eqb x b) eqn:E.
    + exfalso. apply Hn. left. apply Byte.byte_dec_bl. exact E.
    + rewrite IH by (intros H; apply Hn; right; exact H).
      simpl. f_equal. rewrite len_cons. lia.
Qed.

Lemma index_head (tl : bytes) (b : byte) : index (b :: tl) b = Returns 0.
Proof. apply (index_first [] tl b). intros []. Qed.

(** Every byte string either has no [b] or splits at its first [b]. *)
Lemma first_occurrence (l : bytes) (b : byte) :
  ~ In b l \/ exists junk tl, l = junk ++ b :: tl /\ ~ In b junk.
Proof.
  induction l as [|x l IH].
  - left. intros [].
  - destruct (Byte.byte_eq_dec x b) as [-> | Hx].
    + right. exists [], l. split; [reflexivity | intros []].
    + destruct IH as [Hn | (junk & tl & -> & Hn)].
      * left. intros [H | H]; [exact (Hx H) | exact (Hn H)].
      * right. exists (x :: junk), tl. split; [reflexivity|].
        intros [H | H]; [exact (Hx H) | exact (Hn H)].
Qed.

(** A list at least as long as [n] splits after its first [n] items. *)
Lemma split_at {A : Type} (l : list A) (n : N) :
  n <= len l -> exists l1 l2, l = l1 ++ l2 /\ len l1 = n.
Proof.
  intros Hn. exists (firstn (N.to_nat n) l), (skipn (N.to_nat n) l).
  split; [symmetry; apply firstn_skipn|].
  unfold len in *. rewrite length_firstn. lia.
Qed.

End Sequences.

(** ** Fletcher-16 *)

Section Fletcher.

Lemma total_app (l1 l2 : bytes) : total (l1 ++ l2) = total l1 + total l2.
Proof. induction l1 as [|b l1 IH]; simpl; [reflexivity | rewrite IH; lia]. Qed.

Lemma fold_step_sums (data : bytes) (sum1 sum2 : N) :
  fold_left fletcher16_step data (sum1, sum2)
  = fletcher_sums 255 (map Byte.to_N data) sum1 sum2.
Proof.
  revert sum1 sum2. induction data as [|b data IH]; intros sum1 sum2.
  - reflexivity.
  - simpl. unfold fletcher16_step at 2. simpl fst. simpl snd. apply IH.
Qed.

Lemma fold_step_bounds (data : bytes) (sum1 sum2 : N) :
  sum1 < 255 -> sum2 < 255 ->
  fst (fold_left fletcher16_step data (sum1, sum2)) < 255
  /\ snd (fold_left fletcher16_step data (sum1, sum2)) < 255.
Proof.
  revert sum1 sum2. induction data as [|b data IH]; intros sum1 sum2 H1 H2.
  - simpl. split; assumption.
  - simpl. unfold fletcher16_step at 2 4. simpl fst. simpl snd.
    apply IH; apply N.mod_lt; lia.
Qed.

Lemma fold_step_sum1 (data : bytes) (sum1 sum2 : N) :
  sum1 < 255 ->
  fst (fold_left fletcher16_step data (sum1, sum2)) = (sum1 + total data) mod 255.
Proof.
  revert sum1 sum2. induction data as [|b data IH]; intros sum1 sum2 H1.
  - simpl. rewrite N.add_0_r, N.mod_small by exact H1. reflexivity.
  - simpl. unfold fletcher16_step at 2. simpl fst. simpl snd.
    rewrite IH by (apply N.mod_lt; lia).
    rewrite N.Div0.add_mod_idemp_l. f_equal. lia.
Qed.

Lemma fold_step_sum2 (data : bytes) (sum1 sum2 : N) :
  sum2 < 255 ->
  snd (fold_left fletcher16_step data (sum1, sum2))
  = (sum2 + len data * sum1 + weighted data) mod 255.
Proof.
  revert sum1 sum2. induction data as [|b data IH]; intros sum1 sum2 H2.
  - simpl. rewrite N.add_0_r, N.add_0_r, N.mod_small by exact H2. reflexivity.
  - simpl fold_left. unfold fletcher16_step at 2. simpl fst. simpl snd.
    rewrite IH by (apply N.mod_lt; lia).
    cbn [weighted]. rewrite len_cons.
    set (t := sum1 + Byte.to_N b). set (L := len data). set (W := weighted data).
    replace ((sum2 + t mod 255) mod 255 + L * (t mod 255) + W)
      with ((sum2 + t mod 255) mod 255 + (L * (t mod 255) + W)) by ring.
    rewrite N.Div0.add_mod_idemp_l.
    replace (sum2 + t mod 255 + (L * (t mod 255) + W))
      with ((t mod 255) * (L + 1) + (sum2 + W)) by ring.
    rewrite N.Div0.add_mod, N.Div0.mul_mod_idemp_l, <- N.Div0.add_mod.
    f_equal. unfold t. ring.
Qed.

(** Fletcher-16 in closed form. *)
Lemma fletcher16_closed_form (data : bytes) :
  fletcher16 data = (weighted data mod 255) * 256 + total data mod 255.
Proof.
  unfold fletcher16.
  pose proof (fold_step_sum1 data 0 0 eq_refl) as S1.
  pose proof (fold_step_sum2 data 0 0 eq_refl) as S2.
  destruct (fold_left fletcher16_step data (0, 0)) as [sum1 sum2].
  simpl fst in *. simpl snd in *. subst sum1 sum2.
  rewrite N.mul_0_r, !N.add_0_l.
  apply lor_shiftl_8.
  assert (total data mod 255 < 255) by (apply N.mod_lt; lia). lia.
Qed.

(** The checksum is [sum2 * 256 + sum1]; its low byte is the byte total
    modulo 255. *)
Lemma fletcher16_sums (data : bytes) :
  exists sum2, sum2 < 255 /\
    fletcher16 data = sum2 * 256 + total data mod 255.
Proof.
  unfold fletcher16.
  pose proof (fold_step_bounds data 0 0 eq_refl eq_refl) as [B1 B2].
  pose proof (fold_step_sum1 data 0 0 eq_refl) as S1.
  destruct (fold_left fletcher16_step data (0, 0)) as [sum1 sum2].
  simpl fst in *. simpl snd in *. exists sum2. split; [exact B2|].
  rewrite lor_shiftl_8 by lia. rewrite S1. reflexivity.
Qed.

Lemma fletcher16_16_bits (data : bytes) : fletcher16 data <= 65535.
Proof.
  destruct (fletcher16_sums data) as (sum2 & B & ->).
  assert (total data mod 255 < 255) by (apply N.mod_lt; lia). lia.
Qed.

Lemma fletcher16_low (data : bytes) :
  fletcher16 data mod 256 = total data mod 255.
Proof.
  destruct (fletcher16_sums data) as (sum2 & B & ->).
  assert (total data mod 255 < 255) by (apply N.mod_lt; lia).
  rewrite N.add_comm, N.Div0.mod_add. apply N.mod_small. lia.
Qed.

(** Replacing one byte by one that differs modulo 255 changes the
    checksum. *)
Lemma fletcher16_detects (pre post : bytes) (b b' : byte) :
  Byte.to_N b' mod 255 <> Byte.to_N b mod 255 ->
  fletcher16 (pre ++ b' :: post) <> fletcher16 (pre ++ b :: post).
Proof.
  intros Hne Heq. apply (f_equal (fun c => c mod 256)) in Heq.
  rewrite !fletcher16_low, !total_app in Heq. simpl in Heq.
  pose proof (to_N_lt_256 b). pose proof (to_N_lt_256 b').
  apply Hne. clear Hne.
  zify. Z.to_euclidean_division_equations. lia.
Qed.

End Fletcher.


(** ** One pass of the loop *)

Section Pass.

Lemma discard_before_start (buffer : bytes) (start : N) :
  (if 0 <? start then del_prefix buffer start else buffer) = del_prefix buffer start.
Proof.
  destruct (0 <? start) eqn:E; [reflexivity|].
  apply N.ltb_ge in E. replace start with 0 by lia. reflexivity.
Qed.

Lemma feed_body_no_start (buffer : bytes) (frames : list bytes) :
  ~ In xc0 buffer -> feed_body buffer frames = Returns (Break [] frames).
Proof.
  intros Hn. unfold feed_body.
  change (getitem FRAME_MAGIC 0) with (@Returns byte xc0).
  cbv beta iota delta [bind]. rewrite index_absent by exact Hn. reflexivity.
Qed.

Lemma feed_body_at_start (junk tl : bytes) (frames : list bytes) :
  ~ In xc0 junk ->
  feed_body (junk ++ xc0 :: tl) frames = feed_body (xc0 :: tl) frames.
Proof.
  intros Hn. unfold feed_body.
  change (getitem FRAME_MAGIC 0) with (@Returns byte xc0).
  cbv beta iota delta [bind].
  rewrite (index_first junk tl xc0 Hn).
  rewrite (index_head tl xc0).
  rewrite !discard_before_start, del_prefix_app, del_prefix_0.
  reflexivity.
Qed.

Ltac enter_body :=
  unfold feed_body;
  change (getitem FRAME_MAGIC 0) with (@Returns byte xc0);
  change (getitem FRAME_MAGIC 1) with (@Returns byte x3e);
  cbv beta iota zeta delta [bind];
  rewrite index_head, !discard_before_start, !del_prefix_0.

Lemma eqb_x3e (x : byte) : x <> x3e -> Byte.eqb x x3e = false.
Proof.
  intros Hx. destruct (Byte.eqb x x3e) eqn:E; [|reflexivity].
  exfalso. apply Hx. apply Byte.byte_dec_bl. exact E.
Qed.

Lemma feed_body_lone_start (frames : list bytes) :
  feed_body [xc0] frames = Returns (Break [xc0] frames).
Proof. reflexivity. Qed.

Lemma feed_body_false_start (x : byte) (tl : bytes) (frames : list bytes) :
  x <> x3e ->
  feed_body (xc0 :: x :: tl) frames = Returns (Continue (x :: tl) frames).
Proof.
  intros Hx. enter_body.
  assert ((len (xc0 :: x :: tl) <? 2) = false) as E
    by (apply N.ltb_ge; rewrite !len_cons; lia).
  rewrite E. change (getitem (xc0 :: x :: tl) 1) with (Returns x).
  cbv beta iota. rewrite (eqb_x3e x Hx). reflexivity.
Qed.

Lemma feed_body_short_header (tl : bytes) (frames : list bytes) :
  len tl < 2 ->
  feed_body (xc0 :: x3e :: tl) frames = Returns (Break (xc0 :: x3e :: tl) frames).
Proof.
  intros Htl. enter_body.
  assert ((len (xc0 :: x3e :: tl) <? 2) = false) as E
    by (apply N.ltb_ge; rewrite !len_cons; lia).
  rewrite E. change (getitem (xc0 :: x3e :: tl) 1) with (@Returns byte x3e).
  cbv beta iota.
  assert ((len (xc0 :: x3e :: tl) <? HEADER_SIZE) = true) as E4
    by (apply N.ltb_lt; rewrite !len_cons; unfold HEADER_SIZE; lia).
  rewrite E4. reflexivity.
Qed.

(** Up to the length field: what the pass does with a buffer that holds
    a magic and a full header. *)
Lemma feed_body_header (hi lo : byte) (tl : bytes) (frames : list bytes) :
  let buffer := xc0 :: x3e :: hi :: lo :: tl in
  let length := announced hi lo in
  feed_body buffer frames =
  if len buffer <? HEADER_SIZE + length + CHECKSUM_SIZE
  then Returns (Break buffer frames)
  else
    checksum_high <- getitem buffer (HEADER_SIZE + length) ;;
    checksum_low <- getitem buffer (HEADER_SIZE + length + 1) ;;
    let payload := slice buffer HEADER_SIZE (HEADER_SIZE + length) in
    Returns (Continue
               (del_prefix buffer (HEADER_SIZE + length + CHECKSUM_SIZE))
               (if announced checksum_high checksum_low =? fletcher16 payload
                then frames ++ [payload] else frames)).
Proof.
  intros buffer length. subst buffer length. enter_body.
  assert ((len (xc0 :: x3e :: hi :: lo :: tl) <? 2) = false) as E
    by (apply N.ltb_ge; rewrite !len_cons; lia).
  rewrite E.
  change (getitem (xc0 :: x3e :: hi :: lo :: tl) 1) with (@Returns byte x3e).
  cbv beta iota.
  assert ((len (xc0 :: x3e :: hi :: lo :: tl) <? HEADER_SIZE) = false) as E4
    by (apply N.ltb_ge; rewrite !len_cons; unfold HEADER_SIZE; lia).
  rewrite E4.
  change (getitem (xc0 :: x3e :: hi :: lo :: tl) 2) with (Returns hi).
  change (getitem (xc0 :: x3e :: hi :: lo :: tl) 3) with (Returns lo).
  cbv beta iota. rewrite (big_endian_16 hi lo).
  destruct (len (xc0 :: x3e :: hi :: lo :: tl)
              <? HEADER_SIZE + announced hi lo + CHECKSUM_SIZE); [reflexivity|].
  destruct (getitem (xc0 :: x3e :: hi :: lo :: tl) (HEADER_SIZE + announced hi lo))
    as [ch| |]; [|reflexivity|reflexivity].
  destruct (getitem (xc0 :: x3e :: hi :: lo :: tl) (HEADER_SIZE + announced hi lo + 1))
    as [cl| |]; [|reflexivity|reflexivity].
  cbv beta iota zeta delta [bind]. rewrite (big_endian_16 ch cl). reflexivity.
Qed.

Lemma feed_body_partial_frame (hi lo : byte) (tl : bytes) (frames : list bytes) :
  len tl < announced hi lo + 2 ->
  feed_body (xc0 :: x3e :: hi :: lo :: tl) frames
  = Returns (Break (xc0 :: x3e :: hi :: lo :: tl) frames).
Proof.
  intros Htl. rewrite feed_body_header. cbv zeta.
  assert ((len (xc0 :: x3e :: hi :: lo :: tl)
             <? HEADER_SIZE + announced hi lo + CHECKSUM_SIZE) = true) as E
    by (apply N.ltb_lt; rewrite !len_cons; unfold HEADER_SIZE, CHECKSUM_SIZE; lia).
  rewrite E. reflexivity.
Qed.

Lemma feed_body_whole_frame (hi lo ch cl : byte) (p rest : bytes)
      (frames : list bytes) :
  len p = announced hi lo ->
  feed_body (xc0 :: x3e :: hi :: lo :: p ++ ch :: cl :: rest) frames
  = Returns (Continue rest
               (if announced ch cl =? fletcher16 p
                then frames ++ [p] else frames)).
Proof.
  intros Hp. rewrite feed_body_header. cbv zeta. rewrite <- Hp.
  change (xc0 :: x3e :: hi :: lo :: p ++ ch :: cl :: rest)
    with ([xc0; x3e; hi; lo] ++ p ++ ch :: cl :: rest).
  change HEADER_SIZE with (len [xc0; x3e; hi; lo]).
  assert ((len ([xc0; x3e; hi; lo] ++ p ++ ch :: cl :: rest)
             <? len [xc0; x3e; hi; lo] + len p + CHECKSUM_SIZE) = false) as E
    by (apply N.ltb_ge; rewrite !len_app, !len_cons; unfold CHECKSUM_SIZE; lia).
  rewrite E, slice_app.
  replace (len [xc0; x3e; hi; lo] + len p) with (len ([xc0; x3e; hi; lo] ++ p))
    by apply len_app.
  rewrite (app_assoc [xc0; x3e; hi; lo] p (ch :: cl :: rest)), getitem_app.
  cbv beta iota delta [bind].
  replace (len ([xc0; x3e; hi; lo] ++ p) + 1)
    with (len (([xc0; x3e; hi; lo] ++ p) ++ [ch]))
    by (rewrite (len_app _ [ch]); reflexivity).
  replace (len ([xc0; x3e; hi; lo] ++ p) + CHECKSUM_SIZE)
    with (len (([xc0; x3e; hi; lo] ++ p) ++ [ch; cl]))
    by (rewrite (len_app _ [ch; cl]); reflexivity).
  change (([xc0; x3e; hi; lo] ++ p) ++ ch :: cl :: rest)
    with (([xc0; x3e; hi; lo] ++ p) ++ [ch] ++ cl :: rest) at 1.
  rewrite (app_assoc _ [ch] (cl :: rest)), getitem_app.
  change (([xc0; x3e; hi; lo] ++ p) ++ ch :: cl :: rest)
    with (([xc0; x3e; hi; lo] ++ p) ++ [ch; cl] ++ rest).
  rewrite (app_assoc _ [ch; cl] rest), del_prefix_app.
  reflexivity.
Qed.

Lemma shape_total (buffer : bytes) : shape buffer.
Proof.
  destruct (first_occurrence buffer xc0) as [Hn | (junk & tl & -> & Hn)].
  { apply shape_no_start. exact Hn. }
  destruct tl as [|x tl]; [apply shape_lone_start; exact Hn|].
  destruct (Byte.byte_eq_dec x x3e) as [-> | Hx];
    [|apply shape_false_start; assumption].
  destruct tl as [|hi [|lo tl]];
    try (apply shape_short_header; [exact Hn | rewrite ?len_cons, ?len_nil; lia]).
  destruct (N.lt_ge_cases (len tl) (announced hi lo + 2)) as [Hlt | Hge];
    [apply shape_partial_frame; assumption|].
  destruct (split_at tl (announced hi lo)) as (p & r & -> & Hp); [lia|].
  rewrite len_app, Hp in Hge.
  destruct r as [|ch [|cl rest]]; rewrite ?len_cons, ?len_nil in Hge; try lia.
  apply shape_whole_frame; assumption.
Qed.

(** A pass either breaks, leaving a buffer that waits for more bytes and
    differs from the one it was given by a prefix without start byte, or
    hands a strictly shorter buffer to the next pass; it only ever
    appends to [frames], and bytes that follow the part it consumed do
    not change what it does. *)
Lemma feed_body_pass (buffer : bytes) :
  (exists buffer' junk,
      waiting buffer' /\ buffer = junk ++ buffer' /\ ~ In xc0 junk
      /\ forall frames, feed_body buffer frames = Returns (Break buffer' frames))
  \/ (exists buffer' emitted,
        (List.length buffer' < List.length buffer)%nat
        /\ forall d frames,
            feed_body (buffer ++ d) frames
            = Returns (Continue (buffer' ++ d) (frames ++ emitted))).
Proof.
  destruct (shape_total buffer) as
    [junk Hn | junk Hn | junk x tl Hn Hx | junk tl Hn Htl
     | junk hi lo tl Hn Htl | junk hi lo p ch cl rest Hn Hp].
  - left. exists [], junk. split; [constructor|].
    rewrite app_nil_r. split; [reflexivity|]. split; [exact Hn|].
    intros frames. apply feed_body_no_start. exact Hn.
  - left. exists [xc0], junk. split; [constructor|].
    split; [reflexivity|]. split; [exact Hn|].
    intros frames. rewrite feed_body_at_start by exact Hn. reflexivity.
  - right. exists (x :: tl), [].
    split; [rewrite length_app; simpl; lia|].
    intros d frames. rewrite <- app_assoc. simpl.
    rewrite feed_body_at_start by exact Hn.
    rewrite feed_body_false_start, app_nil_r by exact Hx. reflexivity.
  - left. exists (xc0 :: x3e :: tl), junk. split; [constructor; exact Htl|].
    split; [reflexivity|]. split; [exact Hn|].
    intros frames. rewrite feed_body_at_start by exact Hn.
    apply feed_body_short_header. exact Htl.
  - left. exists (xc0 :: x3e :: hi :: lo :: tl), junk.
    split; [constructor; exact Htl|].
    split; [reflexivity|]. split; [exact Hn|].
    intros frames. rewrite feed_body_at_start by exact Hn.
    apply feed_body_partial_frame. exact Htl.
  - right. exists rest, (if announced ch cl =? fletcher16 p then [p] else []).
    split; [rewrite !length_app; simpl; rewrite length_app; simpl; lia|].
    intros d frames. rewrite <- app_assoc. simpl. rewrite <- app_assoc. simpl.
    rewrite feed_body_at_start by exact Hn.
    rewrite feed_body_whole_frame by exact Hp.
    destruct (announced ch cl =? fletcher16 p); rewrite ?app_nil_r; reflexivity.
Qed.

Lemma feed_body_skip (junk buffer : bytes) (frames : list bytes) :
  ~ In xc0 junk -> feed_body (junk ++ buffer) frames = feed_body buffer frames.
Proof.
  intros Hn.
  destruct (first_occurrence buffer xc0) as [Hb | (junk' & tl & -> & Hb)].
  - rewrite !feed_body_no_start; [reflexivity | exact Hb |].
    intros H. apply in_app_or in H. tauto.
  - rewrite app_assoc, !feed_body_at_start; [reflexivity | exact Hb |].
    intros H. apply in_app_or in H. tauto.
Qed.

End Pass.

(** ** The loop *)

Section Loop.

(** Fuel beyond the length of the buffer makes no difference. *)
Lemma feed_loop_fuel (n : nat) :
  forall (buffer : bytes) (frames : list bytes) (fuel1 fuel2 : nat),
    (List.length buffer <= n)%nat -> (n < fuel1)%nat -> (n < fuel2)%nat ->
    feed_loop fuel1 buffer frames = feed_loop fuel2 buffer frames.
Proof.
  induction n as [|n IH]; intros buffer frames fuel1 fuel2 Hb H1 H2;
    (destruct fuel1 as [|fuel1]; [lia|]); (destruct fuel2 as [|fuel2]; [lia|]);
    simpl;
    destruct (feed_body_pass buffer)
      as [(b' & junk & _ & _ & _ & E) | (b' & emitted & Hlen & E)].
  - rewrite E. reflexivity.
  - lia.
  - rewrite E. reflexivity.
  - specialize (E [] frames). rewrite !app_nil_r in E. rewrite E. simpl.
    apply IH; lia.
Qed.

Lemma feed_loop_enough (fuel : nat) (buffer : bytes) (frames : list bytes) :
  (List.length buffer < fuel)%nat ->
  feed_loop fuel buffer frames = run buffer frames.
Proof.
  intros H. unfold run. apply (feed_loop_fuel (List.length buffer)); lia.
Qed.

Lemma run_unfold (buffer : bytes) (frames : list bytes) :
  run buffer frames = (p <- feed_body buffer frames ;; resume p).
Proof.
  unfold run at 1. simpl.
  destruct (feed_body_pass buffer)
    as [(b' & junk & _ & _ & _ & E) | (b' & emitted & Hlen & E)].
  - rewrite E. reflexivity.
  - specialize (E [] frames). rewrite !app_nil_r in E. rewrite E. simpl.
    apply feed_loop_enough. exact Hlen.
Qed.

Lemma run_skip (junk buffer : bytes) (frames : list bytes) :
  ~ In xc0 junk -> run (junk ++ buffer) frames = run buffer frames.
Proof.
  intros Hn. rewrite !run_unfold, feed_body_skip by exact Hn. reflexivity.
Qed.

(** The loop always returns: it leaves a waiting buffer and appends the
    emitted payloads to [frames]; and it treats bytes appended to its
    input as if they had been appended to what it left. *)
Lemma run_spec (n : nat) :
  forall buffer : bytes,
    (List.length buffer <= n)%nat ->
    exists buffer' emitted,
      waiting buffer'
      /\ (forall frames, run buffer frames = Returns (buffer', frames ++ emitted))
      /\ (forall d frames,
            run (buffer ++ d) frames = run (buffer' ++ d) (frames ++ emitted)).
Proof.
  induction n as [|n IH]; intros buffer Hb;
    destruct (feed_body_pass buffer)
      as [(b' & junk & Hw & -> & Hn & E) | (b1 & em1 & Hlen & E)];
    try lia.
  1,2: exists b', []; split; [exact Hw|]; split;
       [ intros frames; rewrite run_unfold, E, app_nil_r; reflexivity
       | intros d frames;
         rewrite <- app_assoc, run_skip, app_nil_r by exact Hn; reflexivity ].
  destruct (IH b1) as (b' & em2 & Hw & Hrun & Happ); [lia|].
  exists b', (em1 ++ em2). split; [exact Hw|]. split.
  - intros frames. pose proof (E [] frames) as E0. rewrite !app_nil_r in E0.
    rewrite run_unfold, E0. simpl. rewrite Hrun, app_assoc. reflexivity.
  - intros d frames. rewrite run_unfold, E. simpl.
    rewrite Happ, app_assoc. reflexivity.
Qed.

Lemma run_returns (buffer : bytes) :
  exists buffer' emitted,
    waiting buffer'
    /\ (forall frames, run buffer frames = Returns (buffer', frames ++ emitted))
    /\ (forall d frames,
          run (buffer ++ d) frames = run (buffer' ++ d) (frames ++ emitted)).
Proof. apply (run_spec (List.length buffer)). lia. Qed.

(** A waiting buffer is left as it is. *)
Lemma run_waiting (buffer : bytes) (frames : list bytes) :
  waiting buffer -> run buffer frames = Returns (buffer, frames).
Proof.
  intros Hw. rewrite run_unfold. destruct Hw as [| |tl Htl|hi lo tl Htl].
  - rewrite feed_body_no_start by (intros []). reflexivity.
  - rewrite feed_body_lone_start. reflexivity.
  - rewrite feed_body_short_header by exact Htl. reflexivity.
  - rewrite feed_body_partial_frame by exact Htl. reflexivity.
Qed.

End Loop.

(** ** Encoding *)

Section Encoding.

Lemma to_bytes_2_big_inv (n : N) (bs : bytes) :
  to_bytes_2_big n = Returns bs ->
  exists hi lo, bs = [hi; lo] /\ announced hi lo = n.
Proof.
  intros E. destruct (N.le_gt_cases n 65535) as [Hn | Hn].
  - destruct (to_bytes_2_big_fits n Hn) as (hi & lo & E' & Ha).
    rewrite E' in E. injection E as <-. exists hi, lo. split; [reflexivity | exact Ha].
  - rewrite to_bytes_2_big_overflow in E by exact Hn. discriminate E.
Qed.

Lemma encode_frame_fits (payload : bytes) :
  len payload <= 65535 ->
  exists hi lo ch cl,
    encode_frame payload = Returns (FRAME_MAGIC ++ [hi; lo] ++ payload ++ [ch; cl])
    /\ announced hi lo = len payload
    /\ to_bytes_2_big (fletcher16 payload) = Returns [ch; cl]
    /\ announced ch cl = fletcher16 payload.
Proof.
  intros Hp. unfold encode_frame.
  destruct (to_bytes_2_big_fits (len payload) Hp) as (hi & lo & El & Hl).
  destruct (to_bytes_2_big_fits (fletcher16 payload) (fletcher16_16_bits payload))
    as (ch & cl & Ec & Hc).
  exists hi, lo, ch, cl. rewrite El, Ec. simpl bind. auto.
Qed.

Lemma encode_frame_overflow (payload : bytes) :
  65535 < len payload -> encode_frame payload = Raises OverflowError.
Proof.
  intros Hp. unfold encode_frame.
  rewrite to_bytes_2_big_overflow by exact Hp. reflexivity.
Qed.

Lemma encode_frame_inv (payload frame : bytes) :
  encode_frame payload = Returns frame ->
  exists hi lo ch cl,
    frame = xc0 :: x3e :: hi :: lo :: payload ++ [ch; cl]
    /\ announced hi lo = len payload
    /\ announced ch cl = fletcher16 payload.
Proof.
  intros E. destruct (N.le_gt_cases (len payload) 65535) as [Hp | Hp].
  - destruct (encode_frame_fits payload Hp) as (hi & lo & ch & cl & E' & Hl & _ & Hc).
    rewrite E' in E. injection E as <-. exists hi, lo, ch, cl. auto.
  - rewrite encode_frame_overflow in E by exact Hp. discriminate E.
Qed.

(** A frame at the head of the buffer is taken off and its payload kept. *)
Lemma run_frame (payload frame rest : bytes) (frames : list bytes) :
  encode_frame payload = Returns frame ->
  run (frame ++ rest) frames = run rest (frames ++ [payload]).
Proof.
  intros E. destruct (encode_frame_inv payload frame E) as (hi & lo & ch & cl & -> & Hl & Hc).
  rewrite run_unfold. simpl app. rewrite <- app_assoc. simpl app.
  rewrite feed_body_whole_frame by (symmetry; exact Hl).
  rewrite Hc, N.eqb_refl. reflexivity.
Qed.

Lemma encode_frames_fit (payloads : list bytes) :
  Forall (fun p => len p <= 65535) payloads ->
  exists stream, encode_frames payloads = Returns stream.
Proof.
  induction 1 as [|p payloads Hp _ (stream & IH)]; simpl.
  - exists []. reflexivity.
  - destruct (encode_frame_fits p Hp) as (hi & lo & ch & cl & E & _).
    rewrite E, IH. simpl. eexists. reflexivity.
Qed.

Lemma run_frames (payloads : list bytes) :
  forall (stream : bytes) (frames : list bytes),
    encode_frames payloads = Returns stream ->
    run stream frames = Returns ([], frames ++ payloads).
Proof.
  induction payloads as [|p payloads IH]; intros stream frames E; simpl in E.
  - injection E as <-. rewrite run_waiting by constructor.
    rewrite app_nil_r. reflexivity.
  - destruct (encode_frame p) as [frame| |] eqn:Ep; try discriminate E.
    simpl in E. destruct (encode_frames payloads) as [stream'| |]; try discriminate E.
    simpl in E. injection E as <-.
    rewrite (run_frame p frame stream' frames Ep), (IH stream' _ eq_refl).
    rewrite <- app_assoc. reflexivity.
Qed.

End Encoding.

(** ** The decoder object *)

Section Decoder.

Lemma feed_run (self : FrameDecoder) (data : bytes) :
  feed self data
  = (r <- run (_buffer self ++ data) [] ;; Returns (mkFrameDecoder (fst r), snd r)).
Proof. reflexivity. Qed.

(** [feed] always returns; it leaves a waiting buffer, and feeding
    [data ++ d] at once is feeding [data], then [d]. *)
Lemma feed_returns (self : FrameDecoder) (data : bytes) :
  exists buffer' out,
    feed self data = Returns (mkFrameDecoder buffer', out)
    /\ waiting buffer'
    /\ forall d,
        feed self (data ++ d)
        = (r <- feed (mkFrameDecoder buffer') d ;; Returns (fst r, out ++ snd r)).
Proof.
  destruct (run_returns (_buffer self ++ data)) as (b' & out & Hw & Hrun & Happ).
  exists b', out. split; [|split; [exact Hw|]].
  - rewrite feed_run, Hrun. reflexivity.
  - intros d. rewrite !feed_run, app_assoc, Happ. simpl _buffer. simpl app.
    destruct (run_returns (b' ++ d)) as (b'' & out' & _ & Hrun' & _).
    rewrite !Hrun'. reflexivity.
Qed.

Lemma feed_nothing (buffer : bytes) :
  waiting buffer ->
  feed (mkFrameDecoder buffer) [] = Returns (mkFrameDecoder buffer, []).
Proof.
  intros Hw. rewrite feed_run. simpl _buffer. rewrite app_nil_r, run_waiting by exact Hw.
  reflexivity.
Qed.

(** However the input is cut into chunks, the decoder ends in the same
    state and has returned the same payloads. *)
Lemma feed_chunks_concat (chunks : list bytes) :
  forall buffer : bytes,
    waiting buffer ->
    feed_chunks (mkFrameDecoder buffer) chunks
    = feed (mkFrameDecoder buffer) (List.concat chunks).
Proof.
  induction chunks as [|data chunks IH]; intros buffer Hw; simpl.
  - symmetry. apply feed_nothing. exact Hw.
  - destruct (feed_returns (mkFrameDecoder buffer) data) as (b' & out & E & Hw' & Happ).
    rewrite Happ, E. simpl. rewrite (IH b' Hw'). reflexivity.
Qed.

End Decoder.

(** ** Resynchronisation and corruption *)

Section Resync.

Lemma no_magic_tail (a : byte) (junk : bytes) :
  no_magic (a :: junk) = true -> no_magic junk = true.
Proof.
  destruct junk as [|b junk]; [reflexivity|].
  intros H. change (no_magic (a :: b :: junk))
    with (negb (Byte.eqb a xc0 && Byte.eqb b x3e) && no_magic (b :: junk)) in H.
  apply andb_true_iff in H. apply H.
Qed.

Lemma no_magic_head (b : byte) (junk : bytes) :
  no_magic (xc0 :: b :: junk) = true -> b <> x3e.
Proof.
  intros H ->. discriminate H.
Qed.

(** Junk without a magic in it is skipped up to the next start byte. *)
Lemma run_junk (junk tl : bytes) (frames : list bytes) :
  no_magic junk = true ->
  run (junk ++ xc0 :: tl) frames = run (xc0 :: tl) frames.
Proof.
  induction junk as [|a junk IH]; intros Hj; [reflexivity|].
  pose proof (no_magic_tail a junk Hj) as Hj'.
  destruct (Byte.byte_eq_dec a xc0) as [-> | Ha].
  - rewrite <- (IH Hj'). rewrite run_unfold. simpl app.
    destruct junk as [|b junk]; simpl app.
    + rewrite feed_body_false_start by discriminate. reflexivity.
    + rewrite feed_body_false_start by (apply (no_magic_head b junk Hj)).
      reflexivity.
  - rewrite <- (IH Hj'). apply (run_skip [a]).
    intros [H | []]. apply Ha. exact H.
Qed.

Lemma getitem_split {A : Type} (l : list A) (i : N) (a : A) :
  getitem l i = Returns a -> exists l1 l2, l = l1 ++ a :: l2 /\ len l1 = i.
Proof.
  unfold getitem. intros E.
  destruct (nth_error l (N.to_nat i)) as [a'|] eqn:En; [|discriminate E].
  injection E as ->.
  destruct (nth_error_split l (N.to_nat i) En) as (l1 & l2 & -> & Hl).
  exists l1, l2. split; [reflexivity|]. unfold len. lia.
Qed.

Lemma replace_at_app (l1 l2 : bytes) (a b : byte) :
  replace_at (l1 ++ a :: l2) (len l1) b = l1 ++ b :: l2.
Proof.
  unfold replace_at, len. rewrite Nat2N.id.
  rewrite skipn_app, skipn_all, Nat.sub_diag. simpl.
  rewrite firstn_app, firstn_all, Nat.sub_diag. simpl.
  rewrite app_nil_r. reflexivity.
Qed.

(** A frame whose stored checksum is not the checksum of the bytes in its
    payload field is taken off the buffer and nothing is kept. *)
Lemma run_bad_frame (hi lo ch cl : byte) (p rest : bytes) (frames : list bytes) :
  len p = announced hi lo ->
  announced ch cl <> fletcher16 p ->
  run (xc0 :: x3e :: hi :: lo :: p ++ ch :: cl :: rest) frames = run rest frames.
Proof.
  intros Hp Hc. rewrite run_unfold, feed_body_whole_frame by exact Hp.
  apply N.eqb_neq in Hc. rewrite Hc. reflexivity.
Qed.

End Resync.

(** ** Reconnect backoff *)

Section Backoff.

Import SerialHandler.

Lemma try_reconnect_failure (self : SerialHandler) :
  try_reconnect false self
  = Returns (mkAttempt
               (mkSerialHandler None init
                  (N.min (_reconnect_delay self * 2) RECONNECT_DELAY_MAX))
               (_reconnect_delay self) false).
Proof. reflexivity. Qed.

Lemma try_reconnect_success (self : SerialHandler) :
  try_reconnect true self
  = Returns (mkAttempt
               (mkSerialHandler (Some (mkSerial true)) init RECONNECT_DELAY_MIN)
               (_reconnect_delay self) true).
Proof. reflexivity. Qed.

Lemma backoff_double (k : nat) :
  N.min (backoff k * 2) RECONNECT_DELAY_MAX = backoff (S k).
Proof.
  unfold backoff, RECONNECT_DELAY_MAX.
  rewrite Nat2N.inj_succ, N.pow_succ_r'.
  assert (0 < 2 ^ N.of_nat k) by (apply N.neq_0_lt_0, N.pow_nonzero; discriminate).
  lia.
Qed.

(** [n] failures in a row, starting after [k] doublings. *)
Lemma failed_attempts (n : nat) :
  forall (self : SerialHandler) (k : nat),
    _reconnect_delay self = backoff k ->
    exists self',
      reconnect_attempts (repeat false n) self
      = Returns (self', map backoff (seq k n))
      /\ _reconnect_delay self' = backoff (k + n).
Proof.
  induction n as [|n IH]; intros self k Hd.
  - exists self. rewrite Nat.add_0_r. split; [reflexivity | exact Hd].
  - cbn [repeat reconnect_attempts seq map].
    rewrite try_reconnect_failure. cbn [bind handler slept].
    destruct (IH (mkSerialHandler None init
                    (N.min (_reconnect_delay self * 2) RECONNECT_DELAY_MAX)) (S k))
      as (self' & E & Hd').
    { simpl. rewrite Hd. apply backoff_double. }
    exists self'. rewrite E. simpl. rewrite Hd.
    split; [reflexivity|]. rewrite Hd'. f_equal. lia.
Qed.

End Backoff.

(** ** Broker messages *)

Section Broker.

Import MqttHandler.

Lemma split_without_sep (s : string) (sep : ascii) :
  has_char s sep = false -> split s sep = [s].
Proof.
  induction s as [|c s IH]; simpl; intros H; [reflexivity|].
  apply orb_false_iff in H. destruct H as [Hc Hs].
  rewrite Hc, (IH Hs). reflexivity.
Qed.

Lemma split_last_segment (root id : string) (sep : ascii) :
  has_char id sep = false ->
  exists first rest,
    split (root ++ String sep id) sep = first :: rest ++ [id].
Proof.
  intros Hid. induction root as [|c root (first & rest & IH)]; simpl.
  - rewrite Ascii.eqb_refl, (split_without_sep id sep Hid).
    exists EmptyString, []. reflexivity.
  - rewrite IH. destruct (Ascii.eqb c sep).
    + exists EmptyString, (first :: rest). reflexivity.
    + exists (String c first), rest. reflexivity.
Qed.

Lemma getlast_snoc {A : Type} (l : list A) (a : A) : getlast (l ++ [a]) = Returns a.
Proof. unfold getlast. rewrite rev_app_distr. reflexivity. Qed.

(** The topic a bridge publishes on ends in its own identity. *)
Lemma rx_topic_identity (self : MqttHandler) :
  has_char (_mesh_id self) "/" = false ->
  getlast (split (_rx_topic self) "/") = Returns (_mesh_id self).
Proof.
  intros Hid. unfold _rx_topic.
  destruct (split_last_segment (_root_topic self) (_mesh_id self) "/" Hid)
    as (first & rest & E).
  change ("/" ++ _mesh_id self)%string with (String "/" (_mesh_id self)).
  rewrite E. apply (getlast_snoc (first :: rest)).
Qed.

Lemma handle_own_message (b64decode : bytes -> result bytes)
      (self : MqttHandler) (msg : MQTTMessage) :
  getlast (split (topic msg) "/") = Returns (_mesh_id self) ->
  _handle_message b64decode self msg = Returns [].
Proof.
  intros H. unfold _handle_message.
  destruct (len (split (topic msg) "/") <? 2); [reflexivity|].
  rewrite H. simpl bind. rewrite String.eqb_refl. reflexivity.
Qed.

Lemma handle_undecodable (b64decode : bytes -> result bytes)
      (self : MqttHandler) (msg : MQTTMessage) (source : string) (e : exn) :
  getlast (split (topic msg) "/") = Returns source ->
  source <> _mesh_id self ->
  b64decode (payload msg) = Raises e ->
  _handle_message b64decode self msg = Returns []
  \/ _handle_message b64decode self msg = Returns [LogWarning (topic msg)].
Proof.
  intros Hs Hne He. unfold _handle_message.
  destruct (len (split (topic msg) "/") <? 2); [left; reflexivity|].
  rewrite Hs. simpl bind. apply String.eqb_neq in Hne. rewrite Hne, He.
  right. reflexivity.
Qed.

End Broker.

(** ** What the decoder leaves in its buffer *)

Section Waiting.

Lemma waiting_head (buffer : bytes) :
  waiting buffer -> buffer = [] \/ exists tl, buffer = xc0 :: tl.
Proof.
  intros [| |tl _|hi lo tl _]; [left; reflexivity | right; eexists; reflexivity ..].
Qed.

Lemma waiting_no_frame (buffer : bytes) : waiting buffer -> ~ frame_at_front buffer.
Proof.
  intros Hw (hi & lo & p & ch & cl & rest & Hp & E).
  destruct Hw as [| |tl Htl|hi' lo' tl Htl]; try discriminate E.
  - injection E as ->. rewrite !len_cons in Htl. lia.
  - injection E as -> -> ->.
    rewrite len_app, !len_cons in Htl. lia.
Qed.

Lemma encoded_frame_at_front (p f rest : bytes) :
  encode_frame p = Returns f -> frame_at_front (f ++ rest).
Proof.
  intros E. destruct (encode_frame_inv p f E) as (hi & lo & ch & cl & -> & Hl & _).
  exists hi, lo, p, ch, cl, rest. split; [symmetry; exact Hl|].
  simpl. rewrite <- app_assoc. reflexivity.
Qed.

Lemma concat_singletons {A : Type} (s : list A) :
  List.concat (map (fun a => [a]) s) = s.
Proof. induction s as [|a s IH]; simpl; [reflexivity | rewrite IH; reflexivity]. Qed.

End Waiting.

(** ** Concrete runs *)

Section Runs.

Example encode_123 :
  encode_frame [x01; x02; x03]
  = Returns [xc0; x3e; x00; x03; x01; x02; x03; x0a; x06].
Proof. reflexivity. Qed.

Example feed_123 :
  feed init [xc0; x3e; x00; x03; x01; x02; x03; x0a; x06]
  = Returns (init, [[x01; x02; x03]]).
Proof. reflexivity. Qed.

Example feed_123_flipped_checksum :
  feed init [xc0; x3e; x00; x03; x01; x02; x03; x06; x0a] = Returns (init, []).
Proof. reflexivity. Qed.

Example feed_zero_changed_to_ff :
  feed init [xc0; x3e; x00; x01; xff; x00; x00] = Returns (init, [[xff]]).
Proof. reflexivity. Qed.

Example feed_waits_for_announced_length :
  feed init [x01; xc0; x3e; xff; xff; xc0; x3e; x00; x00; x00; x00]
  = Returns (mkFrameDecoder [xc0; x3e; xff; xff; xc0; x3e; x00; x00; x00; x00], []).
Proof. reflexivity. Qed.

Example split_topic : split "meshcore/alpha" "/" = ["meshcore"; "alpha"]%string.
Proof. reflexivity. Qed.

Example b64decode_strict_abc :
  b64decode_strict [x51; x55; x4a; x44] = Returns [x41; x42; x43].
Proof. reflexivity. Qed.

Example handle_foreign_message :
  MqttHandler._handle_message b64decode_strict
    (MqttHandler.mkMqttHandler "meshcore" "alpha" true)
    (MqttHandler.mkMessage "meshcore/beta" [x51; x55; x4a; x44])
  = Returns [MqttHandler.LogDebug "beta" 3; MqttHandler.OnPacket [x41; x42; x43]].
Proof. reflexivity. Qed.

Example b64decode_python_abc :
  b64decode_python [x51; x55; x4a; x44] = Returns [x41; x42; x43].
Proof. reflexivity. Qed.

Example b64decode_python_padded :
  b64decode_python [x51; x51; x3d; x3d] = Returns [x41].
Proof. reflexivity. Qed.

Example b64decode_python_skips :
  b64decode_python [x51; x55; x4a; x44; x21] = Returns [x41; x42; x43]
  /\ b64decode_python [xff; xfe] = Returns []
  /\ b64decode_python [x21; x21; x21; x21] = Returns [].
Proof. repeat split. Qed.

Example b64decode_python_cut_short :
  b64decode_python [x51] = Raises BinasciiError
  /\ b64decode_python [x51; x51] = Raises BinasciiError.
Proof. split; reflexivity. Qed.

Example handle_malformed_message :
  MqttHandler._handle_message b64decode_python
    (MqttHandler.mkMqttHandler "meshcore" "alpha" true)
    (MqttHandler.mkMessage "meshcore/beta" [x21; x21; x21; x21])
  = Returns [MqttHandler.LogDebug "beta" 0; MqttHandler.OnPacket []].
Proof. reflexivity. Qed.

End Runs.

(** * The claims *)

(** C1.  For payloads [p1 .. pk], each of at most 65535 bytes, every
    [encode_frame pi] succeeds, and one [feed] call of a fresh decoder on
    the concatenation of the frames returns exactly [[p1; ..; pk]], in
    order, and leaves the buffer empty.  With [k = 1] this is
    [decode (encode p) = [p]]. *)
Theorem feed_encoded_frames (payloads : list bytes) :
  Forall (fun p => len p <= 65535) payloads ->
  exists stream,
    encode_frames payloads = Returns stream
    /\ feed init stream = Returns (init, payloads).
Proof.
  intros Hp. destruct (encode_frames_fit payloads Hp) as (stream & E).
  exists stream. split; [exact E|].
  rewrite feed_run. simpl _buffer. simpl app.
  rewrite (run_frames payloads stream [] E). reflexivity.
Qed.

Lemma feed_encoded_frames_witness :
  Forall (fun p => len p <= 65535) [[x01; x02; x03]; []; [xc0; x3e; xc0]]
  /\ exists stream,
      encode_frames [[x01; x02; x03]; []; [xc0; x3e; xc0]] = Returns stream
      /\ feed init stream = Returns (init, [[x01; x02; x03]; []; [xc0; x3e; xc0]]).
Proof.
  assert (H : Forall (fun p => len p <= 65535) [[x01; x02; x03]; []; [xc0; x3e; xc0]])
    by (repeat constructor; unfold len; simpl; lia).
  split; [exact H | apply (feed_encoded_frames _ H)].
Defined.

(** C2.  [fletcher16] is the Fletcher-16 of the specification: two sums
    from 0 over the unsigned byte values, [sum1 = (sum1 + b) mod 255],
    [sum2 = (sum2 + sum1) mod 255], result [(sum2 << 8) | sum1]; in closed
    form, [sum1] is the byte total and [sum2] the weighted byte total, both
    modulo 255.  The checksum of the empty string is 0, and the modulus is
    255, not 256: on the single byte [0xFF] the two differ. *)
Theorem fletcher16_reference :
  (forall data, fletcher16 data = fletcher_ref 255 data)
  /\ (forall data,
        fletcher16 data = (weighted data mod 255) * 256 + total data mod 255)
  /\ fletcher16 [] = 0
  /\ fletcher16 [xff] = 0
  /\ fletcher_ref 256 [xff] = 65535.
Proof.
  split; [|split; [|split; [|split]]].
  - intros data. unfold fletcher16, fletcher_ref.
    rewrite fold_step_sums. reflexivity.
  - apply fletcher16_closed_form.
  - reflexivity.
  - reflexivity.
  - reflexivity.
Qed.

(** C3.  Feeding a byte string one byte per [feed] call to a fresh
    decoder returns, over all the calls, the payloads that one [feed] call
    on the whole string returns, and leaves the decoder in the same
    state. *)
Theorem feed_granularity_independent (s : bytes) :
  exists self out,
    feed init s = Returns (self, out)
    /\ feed_chunks init (map (fun b => [b]) s) = Returns (self, out).
Proof.
  destruct (feed_returns init s) as (b' & out & E & _ & _).
  exists (mkFrameDecoder b'), out. split; [exact E|].
  unfold init. rewrite feed_chunks_concat by constructor.
  rewrite concat_singletons. exact E.
Qed.

(** C4 (as amended).  Take a valid frame and change one byte of its
    payload to a value that differs from the original modulo 255, that is,
    any change but [0x00] to [0xFF] or back, leaving the stored checksum as
    it is.  Fed to a fresh decoder together with a valid frame that follows
    it, [feed] returns (it raises nothing), returns no payload for the
    changed frame, and returns the payload of the frame that follows. *)
Theorem corrupted_byte_dropped (p q f g : bytes) (i : N) (b b' : byte) :
  encode_frame p = Returns f ->
  encode_frame q = Returns g ->
  getitem p i = Returns b ->
  Byte.to_N b' mod 255 <> Byte.to_N b mod 255 ->
  feed init (replace_at f (HEADER_SIZE + i) b' ++ g) = Returns (init, [q]).
Proof.
  intros Ef Eg Eb Hne.
  destruct (encode_frame_inv p f Ef) as (hi & lo & ch & cl & -> & Hl & Hc).
  destruct (getitem_split p i b Eb) as (pre & post & -> & Hi).
  assert (Er : replace_at (xc0 :: x3e :: hi :: lo :: (pre ++ b :: post) ++ [ch; cl])
                 (HEADER_SIZE + i) b'
               = xc0 :: x3e :: hi :: lo :: (pre ++ b' :: post) ++ [ch; cl]).
  { change (xc0 :: x3e :: hi :: lo :: (pre ++ b :: post) ++ [ch; cl])
      with ([xc0; x3e; hi; lo] ++ (pre ++ b :: post) ++ [ch; cl]).
    rewrite <- (app_assoc pre), (app_assoc [xc0; x3e; hi; lo] pre).
    replace (HEADER_SIZE + i) with (len ([xc0; x3e; hi; lo] ++ pre))
      by (rewrite len_app, Hi; reflexivity).
    change ((b :: post) ++ [ch; cl]) with (b :: post ++ [ch; cl]).
    rewrite replace_at_app, <- app_assoc, <- app_assoc. reflexivity. }
  rewrite Er, feed_run. simpl _buffer. simpl app. rewrite <- app_assoc. simpl app.
  rewrite run_bad_frame.
  - rewrite <- (app_nil_r g), (run_frame q g [] [] Eg).
    rewrite run_waiting by constructor. reflexivity.
  - rewrite Hl, !len_app, !len_cons. reflexivity.
  - rewrite Hc. intros H. symmetry in H. revert H.
    apply fletcher16_detects. exact Hne.
Qed.

Lemma corrupted_byte_dropped_witness :
  encode_frame [x01; x02; x03]
  = Returns [xc0; x3e; x00; x03; x01; x02; x03; x0a; x06]
  /\ encode_frame [x2a] = Returns [xc0; x3e; x00; x01; x2a; x2a; x2a]
  /\ getitem [x01; x02; x03] 1 = Returns x02
  /\ Byte.to_N x07 mod 255 <> Byte.to_N x02 mod 255
  /\ feed init (replace_at [xc0; x3e; x00; x03; x01; x02; x03; x0a; x06]
                  (HEADER_SIZE + 1) x07
                ++ [xc0; x3e; x00; x01; x2a; x2a; x2a])
     = Returns (init, [[x2a]]).
Proof.
  assert (H1 : encode_frame [x01; x02; x03]
               = Returns [xc0; x3e; x00; x03; x01; x02; x03; x0a; x06])
    by reflexivity.
  assert (H2 : encode_frame [x2a] = Returns [xc0; x3e; x00; x01; x2a; x2a; x2a])
    by reflexivity.
  assert (H3 : getitem [x01; x02; x03] 1 = Returns x02) by reflexivity.
  assert (H4 : Byte.to_N x07 mod 255 <> Byte.to_N x02 mod 255)
    by (vm_compute; discriminate).
  split; [exact H1|]. split; [exact H2|]. split; [exact H3|]. split; [exact H4|].
  apply (corrupted_byte_dropped _ _ _ _ 1 x02 x07 H1 H2 H3 H4).
Defined.

(** C4 as stated fails: the payload byte [0x00] changed to [0xFF] leaves
    the Fletcher-16 checksum as it was, and the decoder returns the changed
    payload. *)
Lemma zero_byte_corruption_emitted : ~ corruption_dropped [x00] 0 xff [].
Proof.
  intros H.
  specialize (H [xc0; x3e; x00; x01; x00; x00; x00] [xc0; x3e; x00; x00; x00; x00]
                x00 eq_refl eq_refl eq_refl).
  assert (Hne : xff <> x00) by discriminate.
  specialize (H Hne). vm_compute in H. discriminate H.
Qed.

(** C5.  A pass that finds a start byte [0xC0] followed by a byte other
    than [0x3E] removes the bytes before the start byte and that one byte,
    keeps what follows it, emits nothing, and goes round the loop again.
    Hence a junk prefix in which no [0xC0] is immediately followed by
    [0x3E] does not cost the frame behind it: a fresh decoder fed
    junk followed by a valid frame returns that frame's payload. *)
Theorem resynchronisation :
  (forall (junk tl : bytes) (x : byte) (frames : list bytes),
      ~ In xc0 junk -> x <> x3e ->
      feed_body (junk ++ xc0 :: x :: tl) frames
      = Returns (Continue (x :: tl) frames))
  /\ (forall junk p : bytes,
        no_magic junk = true -> len p <= 65535 ->
        exists f,
          encode_frame p = Returns f
          /\ feed init (junk ++ f) = Returns (init, [p])).
Proof.
  split.
  - intros junk tl x frames Hn Hx.
    rewrite feed_body_at_start by exact Hn.
    apply feed_body_false_start. exact Hx.
  - intros junk p Hj Hp.
    destruct (encode_frame_fits p Hp) as (hi & lo & ch & cl & E & _).
    eexists. split; [exact E|].
    rewrite feed_run. simpl _buffer. simpl app.
    rewrite run_junk by exact Hj.
    change (xc0 :: x3e :: hi :: lo :: p ++ [ch; cl])
      with (FRAME_MAGIC ++ [hi; lo] ++ p ++ [ch; cl]).
    rewrite <- (app_nil_r (FRAME_MAGIC ++ _)), (run_frame p _ [] [] E).
    rewrite run_waiting by constructor. reflexivity.
Qed.

Lemma resynchronisation_witness :
  (~ In xc0 [x01; x3e] /\ x3d <> x3e
   /\ feed_body ([x01; x3e] ++ xc0 :: x3d :: [xc0]) []
      = Returns (Continue (x3d :: [xc0]) []))
  /\ (no_magic [x3e; xc0; x01; xc0; xc0] = true
      /\ len [xc0; x3e; xc0] <= 65535
      /\ exists f,
          encode_frame [xc0; x3e; xc0] = Returns f
          /\ feed init ([x3e; xc0; x01; xc0; xc0] ++ f)
             = Returns (init, [[xc0; x3e; xc0]])).
Proof.
  assert (H1 : ~ In xc0 [x01; x3e])
    by (intros [H | [H | []]]; discriminate H).
  assert (H2 : x3d <> x3e) by discriminate.
  assert (H3 : no_magic [x3e; xc0; x01; xc0; xc0] = true) by reflexivity.
  assert (H4 : len [xc0; x3e; xc0] <= 65535) by (unfold len; simpl; lia).
  split.
  - split; [exact H1|]. split; [exact H2|].
    apply (proj1 resynchronisation [x01; x3e] [xc0] x3d [] H1 H2).
  - split; [exact H3|]. split; [exact H4|].
    apply (proj2 resynchronisation [x3e; xc0; x01; xc0; xc0] [xc0; x3e; xc0] H3 H4).
Defined.

(** C6.  A broker message whose topic ends in the local mesh identity is
    never handed to the serial write path: [_handle_message] returns, and
    no call of [on_packet] is among its effects (it has none at all). *)
Theorem own_messages_suppressed (b64decode : bytes -> result bytes)
        (self : MqttHandler.MqttHandler) (msg : MqttHandler.MQTTMessage) :
  getlast (split (MqttHandler.topic msg) "/") = Returns (MqttHandler._mesh_id self) ->
  exists effects,
    MqttHandler._handle_message b64decode self msg = Returns effects
    /\ (forall packet, ~ In (MqttHandler.OnPacket packet) effects)
    /\ effects = [].
Proof.
  intros H. exists []. split; [apply handle_own_message; exact H|].
  split; [intros packet []|reflexivity].
Qed.

Lemma own_messages_suppressed_witness :
  getlast (split "meshcore/alpha" "/") = Returns "alpha"%string
  /\ exists effects,
      MqttHandler._handle_message b64decode_strict
        (MqttHandler.mkMqttHandler "meshcore" "alpha" true)
        (MqttHandler.mkMessage "meshcore/alpha" [x51; x55; x4a; x44])
      = Returns effects
      /\ (forall packet, ~ In (MqttHandler.OnPacket packet) effects)
      /\ effects = [].
Proof.
  assert (H : getlast (split "meshcore/alpha" "/") = Returns "alpha"%string)
    by reflexivity.
  split; [exact H|].
  apply (own_messages_suppressed b64decode_strict
           (MqttHandler.mkMqttHandler "meshcore" "alpha" true)
           (MqttHandler.mkMessage "meshcore/alpha" [x51; x55; x4a; x44]) H).
Defined.

(** C7.  From a handler whose delay is the minimum of one second, the
    delays slept by [n] failed [try_reconnect] calls in a row are
    [min(2^k, 60)] for [k = 0 .. n-1], and the next call, whatever its
    outcome, sleeps [min(2^n, 60)] seconds; if that call succeeds it
    returns [True] with the delay back at one second, as it is after any
    [open] that returns. *)
Theorem reconnect_backoff (n : nat) (device : bool)
        (self : SerialHandler.SerialHandler) :
  SerialHandler._reconnect_delay self = SerialHandler.RECONNECT_DELAY_MIN ->
  (exists self' a,
      SerialHandler.reconnect_attempts (repeat false n) self
      = Returns (self', map (fun k => N.min (2 ^ N.of_nat k) 60) (seq 0 n))
      /\ SerialHandler.try_reconnect device self' = Returns a
      /\ SerialHandler.slept a = N.min (2 ^ N.of_nat n) 60
      /\ SerialHandler.reconnected a = device
      /\ (device = true ->
          SerialHandler._reconnect_delay (SerialHandler.handler a)
          = SerialHandler.RECONNECT_DELAY_MIN))
  /\ (forall (d : bool) (h h' : SerialHandler.SerialHandler),
        SerialHandler.open d h = Returns h' ->
        d = true
        /\ SerialHandler._reconnect_delay h' = SerialHandler.RECONNECT_DELAY_MIN).
Proof.
  intros Hd. split.
  - destruct (failed_attempts n self 0 Hd) as (self' & E & Hd').
    exists self'. destruct device.
    + eexists. rewrite try_reconnect_success.
      split; [exact E|]. split; [reflexivity|]. simpl.
      split; [exact Hd'|]. split; reflexivity.
    + eexists. rewrite try_reconnect_failure.
      split; [exact E|]. split; [reflexivity|]. simpl.
      split; [exact Hd'|]. split; [reflexivity | discriminate].
  - intros d h h' E. destruct d; [|discriminate E].
    injection E as <-. split; reflexivity.
Qed.

Lemma reconnect_backoff_witness :
  SerialHandler._reconnect_delay SerialHandler.new = SerialHandler.RECONNECT_DELAY_MIN
  /\ exists self' a,
      SerialHandler.reconnect_attempts (repeat false 7) SerialHandler.new
      = Returns (self', [1; 2; 4; 8; 16; 32; 60])
      /\ SerialHandler.try_reconnect true self' = Returns a
      /\ SerialHandler.slept a = 60
      /\ SerialHandler.reconnected a = true
      /\ (true = true ->
          SerialHandler._reconnect_delay (SerialHandler.handler a)
          = SerialHandler.RECONNECT_DELAY_MIN).
Proof.
  assert (H : SerialHandler._reconnect_delay SerialHandler.new
              = SerialHandler.RECONNECT_DELAY_MIN) by reflexivity.
  split; [exact H|].
  apply (proj1 (reconnect_backoff 7 true SerialHandler.new H)).
Defined.

(** C8.  [encode_frame] returns for every payload of at most 65535
    bytes: the magic, the length and the payload, followed by the two
    bytes of [fletcher16 payload], the checksum of the payload alone.  For
    a longer payload it raises [OverflowError].  (Being a function, it
    gives one result per payload.) *)
Theorem encode_frame_total_16_bits (payload : bytes) :
  (len payload <= 65535 ->
   exists hi lo ch cl,
     encode_frame payload = Returns (FRAME_MAGIC ++ [hi; lo] ++ payload ++ [ch; cl])
     /\ to_bytes_2_big (len payload) = Returns [hi; lo]
     /\ to_bytes_2_big (fletcher16 payload) = Returns [ch; cl])
  /\ (65535 < len payload -> encode_frame payload = Raises OverflowError).
Proof.
  split; [|apply encode_frame_overflow].
  intros Hp.
  destruct (to_bytes_2_big_fits (len payload) Hp) as (hi & lo & El & _).
  destruct (to_bytes_2_big_fits (fletcher16 payload) (fletcher16_16_bits payload))
    as (ch & cl & Ec & _).
  exists hi, lo, ch, cl. unfold encode_frame. rewrite El, Ec. simpl bind. auto.
Qed.

Lemma encode_frame_total_16_bits_witness :
  (len [x01; x02; x03] <= 65535
   /\ exists hi lo ch cl,
       encode_frame [x01; x02; x03]
       = Returns (FRAME_MAGIC ++ [hi; lo] ++ [x01; x02; x03] ++ [ch; cl])
       /\ to_bytes_2_big (len [x01; x02; x03]) = Returns [hi; lo]
       /\ to_bytes_2_big (fletcher16 [x01; x02; x03]) = Returns [ch; cl])
  /\ (65535 < len (repeat x00 (N.to_nat 65536))
      /\ encode_frame (repeat x00 (N.to_nat 65536)) = Raises OverflowError).
Proof.
  assert (H1 : len [x01; x02; x03] <= 65535) by (unfold len; simpl; lia).
  assert (H2 : 65535 < len (repeat x00 (N.to_nat 65536)))
    by (unfold len; rewrite repeat_length; lia).
  split; split; [exact H1 | | exact H2 | ].
  - apply (proj1 (encode_frame_total_16_bits [x01; x02; x03]) H1).
  - apply (proj2 (encode_frame_total_16_bits (repeat x00 (N.to_nat 65536))) H2).
Defined.

(** C9 (as amended).  A broker message from another identity whose
    payload the base-64 decoder rejects, that is, on which
    [base64.b64decode] raises, is dropped: [_handle_message] returns (the
    decoder's exception does not reach the caller), its only effect is a
    warning in the log, and no call of [on_packet] is among its effects. *)
Theorem undecodable_message_dropped (b64decode : bytes -> result bytes)
        (self : MqttHandler.MqttHandler) (msg : MqttHandler.MQTTMessage)
        (source : string) (e : exn) :
  getlast (split (MqttHandler.topic msg) "/") = Returns source ->
  source <> MqttHandler._mesh_id self ->
  b64decode (MqttHandler.payload msg) = Raises e ->
  exists effects,
    MqttHandler._handle_message b64decode self msg = Returns effects
    /\ (forall packet, ~ In (MqttHandler.OnPacket packet) effects).
Proof.
  intros Hs Hne He.
  destruct (handle_undecodable b64decode self msg source e Hs Hne He) as [E | E];
    rewrite E; eexists; (split; [reflexivity|]).
  - intros packet [].
  - intros packet [H | []]. discriminate H.
Qed.

Lemma undecodable_message_dropped_witness :
  getlast (split "meshcore/beta" "/") = Returns "beta"%string
  /\ "beta"%string <> "alpha"%string
  /\ b64decode_python [x51; x51] = Raises BinasciiError
  /\ exists effects,
      MqttHandler._handle_message b64decode_python
        (MqttHandler.mkMqttHandler "meshcore" "alpha" true)
        (MqttHandler.mkMessage "meshcore/beta" [x51; x51])
      = Returns effects
      /\ (forall packet, ~ In (MqttHandler.OnPacket packet) effects).
Proof.
  assert (H1 : getlast (split "meshcore/beta" "/") = Returns "beta"%string)
    by reflexivity.
  assert (H2 : "beta"%string <> "alpha"%string) by discriminate.
  assert (H3 : b64decode_python [x51; x51] = Raises BinasciiError) by reflexivity.
  split; [exact H1|]. split; [exact H2|]. split; [exact H3|].
  apply (undecodable_message_dropped b64decode_python
           (MqttHandler.mkMqttHandler "meshcore" "alpha" true)
           (MqttHandler.mkMessage "meshcore/beta" [x51; x51])
           "beta" BinasciiError H1 H2 H3).
Defined.

(** C9 as stated fails: Python's decoder, called without validation,
    skips the characters outside the alphabet, so the payload [!!!!],
    which is not well-formed base-64, decodes to the empty packet, and the
    handler passes that packet to [on_packet]. *)
Lemma malformed_payload_forwarded :
  ~ malformed_dropped (MqttHandler.mkMqttHandler "meshcore" "alpha" true)
      (MqttHandler.mkMessage "meshcore/beta" [x21; x21; x21; x21]).
Proof.
  intros H.
  assert (Hne : "beta"%string <> "alpha"%string) by discriminate.
  destruct (H "beta"%string eq_refl Hne eq_refl) as (effects & E & Hno).
  vm_compute in E. injection E as <-.
  apply (Hno []). right. left. reflexivity.
Qed.

(** C10.  After a [feed] call on a decoder in any state (so, in every
    reachable one) the call has returned and the buffer is empty or starts
    with [0xC0]; no complete frame, with a good checksum or a bad one,
    is left at its front, so that feeding nothing more returns nothing and
    changes nothing. *)
Theorem buffer_invariant (self : FrameDecoder) (data : bytes) :
  exists self' out,
    feed self data = Returns (self', out)
    /\ (_buffer self' = [] \/ exists tl, _buffer self' = xc0 :: tl)
    /\ ~ frame_at_front (_buffer self')
    /\ (forall p f rest, encode_frame p = Returns f -> _buffer self' <> f ++ rest)
    /\ feed self' [] = Returns (self', []).
Proof.
  destruct (feed_returns self data) as (b' & out & E & Hw & _).
  exists (mkFrameDecoder b'), out. simpl _buffer.
  split; [exact E|]. split; [apply waiting_head; exact Hw|].
  split; [apply waiting_no_frame; exact Hw|].
  split; [|apply feed_nothing; exact Hw].
  intros p f rest Ef Hb. apply (waiting_no_frame b' Hw).
  rewrite Hb. apply (encoded_frame_at_front p f rest Ef).
Qed.

(** * Further properties of the code *)

(** ** More on Fletcher-16 *)

Section FletcherMore.

Lemma weighted_app (l1 l2 : bytes) :
  weighted (l1 ++ l2) = weighted l1 + len l2 * total l1 + weighted l2.
Proof.
  induction l1 as [|b l1 IH]; simpl.
  - rewrite N.mul_0_r. reflexivity.
  - rewrite IH, len_app. ring.
Qed.

Lemma fletcher16_high (data : bytes) :
  fletcher16 data / 256 = weighted data mod 255.
Proof.
  rewrite fletcher16_closed_form.
  assert (total data mod 255 < 255) by (apply N.mod_lt; lia).
  rewrite N.div_add_l by discriminate.
  rewrite N.div_small by lia. apply N.add_0_r.
Qed.

(** Bytes that agree modulo 255 take the two sums to the same place. *)
Lemma fold_step_congruent (l1 l2 : bytes) :
  Forall2 (fun a b => Byte.to_N a mod 255 = Byte.to_N b mod 255) l1 l2 ->
  forall sums, fold_left fletcher16_step l1 sums = fold_left fletcher16_step l2 sums.
Proof.
  induction 1 as [|a b l1 l2 Hab _ IH]; intros sums; [reflexivity|].
  simpl. rewrite IH. f_equal. unfold fletcher16_step.
  assert (E : (fst sums + Byte.to_N a) mod 255 = (fst sums + Byte.to_N b) mod 255).
  { rewrite (N.Div0.add_mod _ (Byte.to_N a)), Hab, <- N.Div0.add_mod. reflexivity. }
  rewrite E. reflexivity.
Qed.

Lemma congruent_refl (l : bytes) :
  Forall2 (fun a b => Byte.to_N a mod 255 = Byte.to_N b mod 255) l l.
Proof. induction l; constructor; auto. Qed.

Lemma fletcher16_congruent (l1 l2 : bytes) :
  Forall2 (fun a b => Byte.to_N a mod 255 = Byte.to_N b mod 255) l1 l2 ->
  fletcher16 l1 = fletcher16 l2.
Proof.
  intros H. unfold fletcher16. rewrite (fold_step_congruent l1 l2 H). reflexivity.
Qed.

End FletcherMore.

(** X1.  The two sums of [fletcher16] stay below 255, so neither byte of
    a checksum is ever [0xFF], the checksum is at most [0xFEFE], and
    [checksum.to_bytes(2, "big")] in [encode_frame] cannot overflow. *)
Theorem fletcher16_bytes_below_255 (data : bytes) :
  fletcher16 data <= 65278
  /\ exists ch cl,
      to_bytes_2_big (fletcher16 data) = Returns [ch; cl]
      /\ Byte.to_N ch < 255 /\ Byte.to_N cl < 255.
Proof.
  pose proof (fletcher16_high data) as Hh. pose proof (fletcher16_low data) as Hl.
  assert (B1 : weighted data mod 255 < 255) by (apply N.mod_lt; lia).
  assert (B2 : total data mod 255 < 255) by (apply N.mod_lt; lia).
  split.
  - rewrite fletcher16_closed_form. lia.
  - unfold to_bytes_2_big. rewrite Hh, Hl.
    destruct (Byte.of_N (weighted data mod 255)) as [ch|] eqn:Ech;
      [|apply Byte.of_N_None_iff in Ech; lia].
    destruct (Byte.of_N (total data mod 255)) as [cl|] eqn:Ecl;
      [|apply Byte.of_N_None_iff in Ecl; lia].
    exists ch, cl. apply Byte.to_of_N in Ech, Ecl. rewrite Ech, Ecl. auto.
Qed.

(** X2.  [fletcher16] sees bytes only modulo 255.  Data that agree byte
    by byte modulo 255 (any number of [0x00] and [0xFF] exchanged) have
    the same checksum, and replacing a single byte leaves the checksum
    unchanged exactly when the old and the new byte agree modulo 255. *)
Theorem fletcher16_blind_modulo_255 :
  (forall l1 l2 : bytes,
      Forall2 (fun a b => Byte.to_N a mod 255 = Byte.to_N b mod 255) l1 l2 ->
      fletcher16 l1 = fletcher16 l2)
  /\ (forall (pre post : bytes) (b b' : byte),
        fletcher16 (pre ++ b' :: post) = fletcher16 (pre ++ b :: post)
        <-> Byte.to_N b' mod 255 = Byte.to_N b mod 255).
Proof.
  split; [exact fletcher16_congruent|].
  intros pre post b b'. split.
  - intros E. destruct (N.eq_dec (Byte.to_N b' mod 255) (Byte.to_N b mod 255)) as [H | H];
      [exact H|].
    exfalso. exact (fletcher16_detects pre post b b' H E).
  - intros H. apply fletcher16_congruent. apply Forall2_app; [apply congruent_refl|].
    constructor; [exact H | apply congruent_refl].
Qed.

Lemma fletcher16_blind_modulo_255_witness :
  Forall2 (fun a b => Byte.to_N a mod 255 = Byte.to_N b mod 255)
    [x00; x12; xff; xff] [xff; x12; x00; xff]
  /\ fletcher16 [x00; x12; xff; xff] = fletcher16 [xff; x12; x00; xff].
Proof.
  assert (H : Forall2 (fun a b => Byte.to_N a mod 255 = Byte.to_N b mod 255)
                [x00; x12; xff; xff] [xff; x12; x00; xff])
    by (repeat constructor).
  split; [exact H | apply (proj1 fletcher16_blind_modulo_255 _ _ H)].
Defined.

(** X3.  [fletcher16] depends on the order of the bytes: exchanging two
    neighbouring bytes leaves the checksum unchanged exactly when the two
    agree modulo 255. *)
Theorem fletcher16_transposition (pre post : bytes) (a b : byte) :
  fletcher16 (pre ++ a :: b :: post) = fletcher16 (pre ++ b :: a :: post)
  <-> Byte.to_N a mod 255 = Byte.to_N b mod 255.
Proof.
  split.
  - intros E. apply (f_equal (fun c => c / 256)) in E.
    rewrite !fletcher16_high, !weighted_app in E. cbn [weighted] in E.
    rewrite !len_cons in E.
    set (k := len post) in E. set (T := total pre) in E.
    set (W := weighted pre) in E. set (V := weighted post) in E.
    pose proof (to_N_lt_256 a). pose proof (to_N_lt_256 b).
    set (x := Byte.to_N a) in *. set (y := Byte.to_N b) in *.
    set (D := W + (k + 1 + 1) * T + (k + 1) * (x + y) + V).
    replace (W + (k + 1 + 1) * T + ((k + 1 + 1) * x + ((k + 1) * y + V)))
      with (D + x) in E by (unfold D; ring).
    replace (W + (k + 1 + 1) * T + ((k + 1 + 1) * y + ((k + 1) * x + V)))
      with (D + y) in E by (unfold D; ring).
    clearbody D x y. clear -E H H0.
    zify. Z.to_euclidean_division_equations. lia.
  - intros H. apply fletcher16_congruent.
    apply Forall2_app; [apply congruent_refl|].
    constructor; [exact H|]. constructor; [symmetry; exact H | apply congruent_refl].
Qed.

Lemma fletcher16_transposition_witness :
  Byte.to_N x00 mod 255 = Byte.to_N xff mod 255
  /\ fletcher16 ([x07] ++ x00 :: xff :: [x09]) = fletcher16 ([x07] ++ xff :: x00 :: [x09]).
Proof.
  assert (H : Byte.to_N x00 mod 255 = Byte.to_N xff mod 255) by reflexivity.
  split; [exact H|].
  apply (proj2 (fletcher16_transposition [x07] [x09] x00 xff) H).
Defined.

(** ** What the decoder returns and what it keeps *)

Section Soundness.

Lemma announced_16_bits (hi lo : byte) : announced hi lo <= 65535.
Proof.
  unfold announced. pose proof (to_N_lt_256 hi). pose proof (to_N_lt_256 lo). lia.
Qed.

Lemma to_bytes_2_big_announced (hi lo : byte) :
  to_bytes_2_big (announced hi lo) = Returns [hi; lo].
Proof.
  unfold to_bytes_2_big, announced. pose proof (to_N_lt_256 lo).
  rewrite N.div_add_l, N.div_small, N.add_0_r by lia.
  rewrite N.add_comm, N.Div0.mod_add, N.mod_small by lia.
  rewrite !Byte.of_to_N. reflexivity.
Qed.

(** A magic, a length field that is the length of what follows it, and a
    checksum field that is its checksum, are the frame of that payload. *)
Lemma encode_frame_of_parts (hi lo ch cl : byte) (p : bytes) :
  len p = announced hi lo ->
  announced ch cl = fletcher16 p ->
  encode_frame p = Returns (xc0 :: x3e :: hi :: lo :: p ++ [ch; cl]).
Proof.
  intros Hp Hc. unfold encode_frame.
  rewrite Hp, <- Hc, !to_bytes_2_big_announced. reflexivity.
Qed.

Lemma occurs_later (f pre l : bytes) : occurs f l -> occurs f (pre ++ l).
Proof.
  intros (a & b & ->). exists (pre ++ a), b. rewrite <- app_assoc. reflexivity.
Qed.

Lemma framed_in_later (pre l : bytes) (out : list bytes) :
  Forall (framed_in l) out -> Forall (framed_in (pre ++ l)) out.
Proof.
  apply Forall_impl. intros p (Hp & f & E & Ho).
  split; [exact Hp|]. exists f. split; [exact E | apply occurs_later; exact Ho].
Qed.

Lemma run_sound (n : nat) :
  forall (buffer : bytes) (frames : list bytes) (b' : bytes) (out : list bytes),
    (List.length buffer <= n)%nat ->
    run buffer frames = Returns (b', out) ->
    exists consumed emitted,
      buffer = consumed ++ b'
      /\ out = frames ++ emitted
      /\ Forall (framed_in buffer) emitted.
Proof.
  induction n as [|n IH]; intros buffer frames b' out Hn Hrun;
    destruct (shape_total buffer) as
      [junk Hj | junk Hj | junk x tl Hj Hx | junk tl Hj Htl
       | junk hi lo tl Hj Htl | junk hi lo p ch cl rest Hj Hp];
    rewrite run_unfold in Hrun;
    rewrite ?feed_body_at_start in Hrun by exact Hj;
    rewrite ?length_app in Hn; simpl in Hn; rewrite ?length_app in Hn; simpl in Hn;
    try lia.
  1,2: rewrite feed_body_no_start in Hrun by exact Hj; injection Hrun as <- <-;
       exists junk, []; rewrite !app_nil_r; auto.
  - rewrite feed_body_lone_start in Hrun. injection Hrun as <- <-.
    exists junk, []. rewrite app_nil_r. auto.
  - rewrite feed_body_false_start in Hrun by exact Hx. simpl in Hrun.
    destruct (IH (x :: tl) frames b' out) as (consumed & emitted & E & -> & Hf);
      [simpl; lia | exact Hrun |].
    exists (junk ++ xc0 :: consumed), emitted. split; [|split; [reflexivity|]].
    + rewrite <- app_assoc. simpl. rewrite <- E. reflexivity.
    + apply (framed_in_later (junk ++ [xc0])) in Hf.
      rewrite <- app_assoc in Hf. exact Hf.
  - rewrite feed_body_short_header in Hrun by exact Htl. injection Hrun as <- <-.
    exists junk, []. rewrite app_nil_r. auto.
  - rewrite feed_body_partial_frame in Hrun by exact Htl. injection Hrun as <- <-.
    exists junk, []. rewrite app_nil_r. auto.
  - rewrite feed_body_whole_frame in Hrun by exact Hp. simpl in Hrun.
    set (frames' := if announced ch cl =? fletcher16 p then frames ++ [p] else frames)
      in Hrun.
    destruct (IH rest frames' b' out) as (consumed & emitted & E & -> & Hf);
      [lia | exact Hrun |].
    subst frames'.
    exists (junk ++ xc0 :: x3e :: hi :: lo :: p ++ ch :: cl :: consumed).
    exists ((if announced ch cl =? fletcher16 p then [p] else []) ++ emitted).
    split; [|split].
    + rewrite <- app_assoc. simpl. rewrite <- app_assoc. simpl.
      rewrite <- E. reflexivity.
    + destruct (announced ch cl =? fletcher16 p);
        rewrite <- ?app_assoc; reflexivity.
    + apply Forall_app. split.
      * destruct (announced ch cl =? fletcher16 p) eqn:Ec; [|constructor].
        apply N.eqb_eq in Ec. constructor; [|constructor].
        split; [rewrite Hp; apply announced_16_bits|].
        eexists. split; [apply (encode_frame_of_parts hi lo ch cl p Hp Ec)|].
        exists junk, rest. simpl. rewrite <- app_assoc. reflexivity.
      * apply (framed_in_later (junk ++ xc0 :: x3e :: hi :: lo :: p ++ [ch; cl])) in Hf.
        rewrite <- app_assoc in Hf. simpl in Hf. rewrite <- app_assoc in Hf.
        exact Hf.
Qed.

Lemma waiting_bounded (buffer : bytes) : waiting buffer -> len buffer <= 65540.
Proof.
  intros [| |tl Htl|hi lo tl Htl]; rewrite ?len_cons, ?len_nil; try lia.
  pose proof (announced_16_bits hi lo). lia.
Qed.

End Soundness.

(** X4.  [feed] never invents a payload: whatever the decoder held and
    whatever it is fed, every payload it returns has at most 65535 bytes
    and its frame (magic, length, payload, checksum) is a run of
    consecutive bytes of the buffered bytes followed by the new ones. *)
Theorem feed_returns_framed_payloads (self : FrameDecoder) (data : bytes) :
  exists self' out,
    feed self data = Returns (self', out)
    /\ Forall (framed_in (_buffer self ++ data)) out.
Proof.
  destruct (feed_returns self data) as (b' & out & E & _ & _).
  exists (mkFrameDecoder b'), out. split; [exact E|].
  rewrite feed_run in E.
  destruct (run (_buffer self ++ data) []) as [[b'' out'']| |] eqn:Hrun;
    try discriminate E.
  simpl in E. injection E as <- <-.
  destruct (run_sound _ _ _ _ _ (le_n _) Hrun) as (consumed & emitted & _ & -> & Hf).
  exact Hf.
Qed.

(** X5.  What [feed] leaves in the buffer is the end of the bytes it had:
    the buffered bytes followed by the new ones, less a prefix.  It is
    never longer than 65540 bytes (a header and one byte less than the
    longest frame body). *)
Theorem feed_keeps_bounded_suffix (self : FrameDecoder) (data : bytes) :
  exists self' out consumed,
    feed self data = Returns (self', out)
    /\ _buffer self ++ data = consumed ++ _buffer self'
    /\ len (_buffer self') <= 65540.
Proof.
  destruct (feed_returns self data) as (b' & out & E & Hw & _).
  pose proof E as E'. rewrite feed_run in E'.
  destruct (run (_buffer self ++ data) []) as [[b'' out'']| |] eqn:Hrun;
    try discriminate E'.
  simpl in E'. injection E' as <- <-.
  destruct (run_sound _ _ _ _ _ (le_n _) Hrun) as (consumed & emitted & Hc & _ & _).
  exists (mkFrameDecoder b''), out'', consumed. simpl _buffer.
  split; [exact E|]. split; [exact Hc | apply waiting_bounded; exact Hw].
Qed.

(** X6.  From any decoder state, feeding [data] and then the chunks of
    any further input, one [feed] call per chunk, returns the payloads and
    leaves the state of a single [feed] call on all the bytes at once. *)
Theorem feed_any_chunking (self : FrameDecoder) (data : bytes) (chunks : list bytes) :
  feed self (data ++ List.concat chunks)
  = (r <- feed self data ;;
     r' <- feed_chunks (fst r) chunks ;;
     Returns (fst r', snd r ++ snd r')).
Proof.
  destruct (feed_returns self data) as (b' & out & E & Hw & Happ).
  rewrite Happ, E. simpl. rewrite (feed_chunks_concat chunks b' Hw). reflexivity.
Qed.

(** X7.  A header holds the decoder until the frame it announces is
    complete: while fewer than [length + 2] bytes have followed the
    header, nothing is returned and every byte is kept, also when the
    bytes that did follow are themselves a valid frame. *)
Theorem feed_waits_for_announced_frame (hi lo : byte) (tl : bytes) :
  len tl < announced hi lo + 2 ->
  feed init (xc0 :: x3e :: hi :: lo :: tl)
  = Returns (mkFrameDecoder (xc0 :: x3e :: hi :: lo :: tl), []).
Proof.
  intros Htl. rewrite feed_run. simpl _buffer. simpl app.
  rewrite run_waiting by (constructor; exact Htl). reflexivity.
Qed.

Lemma feed_waits_for_announced_frame_witness :
  len [xc0; x3e; x00; x01; x2a; x2a; x2a] < announced x00 x08 + 2
  /\ encode_frame [x2a] = Returns [xc0; x3e; x00; x01; x2a; x2a; x2a]
  /\ feed init (xc0 :: x3e :: x00 :: x08 :: [xc0; x3e; x00; x01; x2a; x2a; x2a])
     = Returns (mkFrameDecoder
                  (xc0 :: x3e :: x00 :: x08 :: [xc0; x3e; x00; x01; x2a; x2a; x2a]),
                []).
Proof.
  assert (H : len [xc0; x3e; x00; x01; x2a; x2a; x2a] < announced x00 x08 + 2)
    by (vm_compute; reflexivity).
  split; [exact H|]. split; [reflexivity|].
  apply (feed_waits_for_announced_frame x00 x08 _ H).
Defined.

(** X8.  A complete frame whose checksum field is not the checksum of its
    payload field is removed as a whole, header, payload and checksum,
    without a rescan inside it: the decoder goes on with the bytes behind
    it, and a valid frame that lies inside the removed payload is lost. *)
Theorem feed_drops_bad_frame_whole (hi lo ch cl : byte) (p rest : bytes) :
  len p = announced hi lo ->
  announced ch cl <> fletcher16 p ->
  feed init (xc0 :: x3e :: hi :: lo :: p ++ ch :: cl :: rest) = feed init rest.
Proof.
  intros Hp Hc. rewrite !feed_run. simpl _buffer. simpl app.
  rewrite (run_bad_frame hi lo ch cl p rest [] Hp Hc). reflexivity.
Qed.

Lemma feed_drops_bad_frame_whole_witness :
  len [xc0; x3e; x00; x01; x2a; x2a; x2a] = announced x00 x07
  /\ announced x00 x01 <> fletcher16 [xc0; x3e; x00; x01; x2a; x2a; x2a]
  /\ encode_frame [x2a] = Returns [xc0; x3e; x00; x01; x2a; x2a; x2a]
  /\ feed init (xc0 :: x3e :: x00 :: x07
                  :: [xc0; x3e; x00; x01; x2a; x2a; x2a] ++ x00 :: x01 :: [x05])
     = feed init [x05].
Proof.
  assert (H1 : len [xc0; x3e; x00; x01; x2a; x2a; x2a] = announced x00 x07)
    by reflexivity.
  assert (H2 : announced x00 x01 <> fletcher16 [xc0; x3e; x00; x01; x2a; x2a; x2a])
    by (vm_compute; discriminate).
  split; [exact H1|]. split; [exact H2|]. split; [reflexivity|].
  apply (feed_drops_bad_frame_whole x00 x07 x00 x01 _ [x05] H1 H2).
Defined.

(** ** The serial handler *)

Section Serial.

Import SerialHandler SerialIO.

Lemma handler_eta (self : SerialHandler) :
  mkSerialHandler (_port self) (_decoder self) (_reconnect_delay self) = self.
Proof. destruct self. reflexivity. Qed.

Lemma decoder_eta (d : FrameDecoder) : mkFrameDecoder (_buffer d) = d.
Proof. destruct d. reflexivity. Qed.

(** Reads on a connected handler are [feed] calls on its decoder; empty
    reads are skipped. *)
Lemma read_all_feed (chunks : list bytes) :
  forall self : SerialHandler,
    connected self = true ->
    waiting (_buffer (_decoder self)) ->
    exists decoder out,
      feed (_decoder self) (List.concat chunks) = Returns (decoder, out)
      /\ read_all (map Returns chunks) self
         = (mkSerialHandler (_port self) decoder (_reconnect_delay self), Done out).
Proof.
  induction chunks as [|d chunks IH]; intros self Hc Hw.
  - exists (_decoder self), []. simpl. rewrite handler_eta. split; [|reflexivity].
    rewrite <- (decoder_eta (_decoder self)). apply feed_nothing. exact Hw.
  - cbn [map read_all List.concat]. unfold read_packets. rewrite Hc. cbn [negb].
    destruct d as [|x d].
    + destruct (IH self Hc Hw) as (decoder & out & E & R).
      exists decoder, out. rewrite R. split; [exact E | reflexivity].
    + destruct (feed_returns (_decoder self) (x :: d)) as (b' & out1 & E1 & Hw' & Happ).
      rewrite E1.
      destruct (IH (mkSerialHandler (_port self) (mkFrameDecoder b')
                      (_reconnect_delay self)) Hc Hw')
        as (decoder & out2 & E2 & R).
      simpl _decoder in E2. simpl _port in R. simpl _reconnect_delay in R.
      exists decoder, (out1 ++ out2). rewrite R, Happ, E2. split; reflexivity.
Qed.

Lemma write_packet_frame (self : SerialHandler) (payload frame : bytes) :
  connected self = true ->
  encode_frame payload = Returns frame ->
  write_packet (Returns tt) self payload = ([PortWrite frame true], Done tt).
Proof.
  intros Hc E. unfold write_packet. rewrite Hc, E. reflexivity.
Qed.

Lemma write_all_wire (self : SerialHandler) (payloads : list bytes) :
  connected self = true ->
  forall stream,
    encode_frames payloads = Returns stream ->
    exists calls,
      write_all self payloads = (calls, Done tt)
      /\ List.length calls = List.length payloads
      /\ wire calls = stream.
Proof.
  intros Hc. induction payloads as [|p payloads IH]; intros stream E; simpl in E.
  - injection E as <-. exists []. auto.
  - destruct (encode_frame p) as [frame| |] eqn:Ep; try discriminate E.
    simpl in E. destruct (encode_frames payloads) as [stream'| |]; try discriminate E.
    simpl in E. injection E as <-.
    destruct (IH stream' eq_refl) as (calls & W & L & Hwire).
    exists (PortWrite frame true :: calls).
    cbn [write_all]. rewrite (write_packet_frame self p frame Hc Ep), W.
    simpl. rewrite L, Hwire. auto.
Qed.

Lemma feed_init_frames (payloads : list bytes) (stream : bytes) :
  encode_frames payloads = Returns stream ->
  feed init stream = Returns (init, payloads).
Proof.
  intros E. rewrite feed_run. simpl _buffer. simpl app.
  rewrite (run_frames payloads stream [] E). reflexivity.
Qed.

End Serial.

(** X9.  Whatever the outcomes of a series of [try_reconnect] calls, and
    from any handler whose delay lies between the minimum and the maximum,
    each call returns, every delay slept and the delay left behind lie
    between 1 and 60 seconds, and after the last call the handler is
    connected exactly if that call succeeded and holds a fresh decoder. *)
Theorem reconnect_keeps_bounds (devices : list bool)
        (self : SerialHandler.SerialHandler) :
  1 <= SerialHandler._reconnect_delay self <= 60 ->
  exists self' delays,
    SerialHandler.reconnect_attempts devices self = Returns (self', delays)
    /\ List.length delays = List.length devices
    /\ Forall (fun d => 1 <= d <= 60) delays
    /\ 1 <= SerialHandler._reconnect_delay self' <= 60
    /\ (devices <> [] ->
        SerialHandler.connected self' = last devices false
        /\ SerialHandler._decoder self' = init).
Proof.
  revert self. induction devices as [|device devices IH]; intros self Hd.
  - exists self, []. split; [reflexivity|]. split; [reflexivity|].
    split; [constructor|]. split; [exact Hd|].
    intros H. exfalso. apply H. reflexivity.
  - cbn [SerialHandler.reconnect_attempts].
    assert (Ha : exists a,
               SerialHandler.try_reconnect device self = Returns a
               /\ SerialHandler.slept a = SerialHandler._reconnect_delay self
               /\ 1 <= SerialHandler._reconnect_delay (SerialHandler.handler a) <= 60
               /\ SerialHandler.connected (SerialHandler.handler a) = device
               /\ SerialHandler._decoder (SerialHandler.handler a) = init).
    { destruct device; eexists;
        [rewrite try_reconnect_success | rewrite try_reconnect_failure];
        (split; [reflexivity|]);
        cbn [SerialHandler.slept SerialHandler.handler SerialHandler._reconnect_delay
             SerialHandler.connected SerialHandler._port SerialHandler.is_open
             SerialHandler._decoder];
        unfold SerialHandler.RECONNECT_DELAY_MIN, SerialHandler.RECONNECT_DELAY_MAX;
        (split; [reflexivity|]); (split; [lia|]); split; reflexivity. }
    destruct Ha as (a & Ea & Hs & Hb & Hc & Hdec). rewrite Ea. cbn [bind].
    destruct (IH (SerialHandler.handler a) Hb) as (self' & delays & E & L & Hf & Hb' & Hl).
    exists self', (SerialHandler.slept a :: delays). rewrite E. cbn [bind fst snd].
    split; [reflexivity|]. split; [simpl; rewrite L; reflexivity|].
    split; [constructor; [rewrite Hs; exact Hd | exact Hf]|].
    split; [exact Hb'|]. intros _.
    destruct devices as [|device' devices].
    + cbn in E. injection E as <- _. cbn [last]. split; assumption.
    + apply Hl. discriminate.
Qed.

Lemma reconnect_keeps_bounds_witness :
  1 <= SerialHandler._reconnect_delay SerialHandler.new <= 60
  /\ exists self' delays,
      SerialHandler.reconnect_attempts
        [false; false; true; false; false; false; false; false; false; false; true]
        SerialHandler.new
      = Returns (self', delays)
      /\ List.length delays = 11%nat
      /\ Forall (fun d => 1 <= d <= 60) delays
      /\ 1 <= SerialHandler._reconnect_delay self' <= 60
      /\ ([false; false; true; false; false; false; false; false; false; false; true]
          <> [] ->
          SerialHandler.connected self' = true
          /\ SerialHandler._decoder self' = init).
Proof.
  assert (H : 1 <= SerialHandler._reconnect_delay SerialHandler.new <= 60)
    by (split; vm_compute; discriminate).
  split; [exact H|].
  apply (reconnect_keeps_bounds
           [false; false; true; false; false; false; false; false; false; false; true]
           SerialHandler.new H).
Defined.

(** X10.  On a connected handler whose decoder waits for bytes (as it
    does when fresh and after every read), a series of [read_packets]
    calls returns, over all the calls, what one [feed] of the decoder on
    all the bytes read returns, however the driver cut the bytes into
    reads and whichever reads came back empty; port and backoff delay are
    left alone. *)
Theorem reads_are_one_feed (chunks : list bytes) (self : SerialHandler.SerialHandler) :
  SerialHandler.connected self = true ->
  waiting (_buffer (SerialHandler._decoder self)) ->
  exists decoder out,
    feed (SerialHandler._decoder self) (List.concat chunks) = Returns (decoder, out)
    /\ SerialIO.read_all (map Returns chunks) self
       = (SerialHandler.mkSerialHandler (SerialHandler._port self) decoder
            (SerialHandler._reconnect_delay self),
          SerialIO.Done out)
    /\ waiting (_buffer decoder).
Proof.
  intros Hc Hw.
  destruct (read_all_feed chunks self Hc Hw) as (decoder & out & F & R).
  exists decoder, out. split; [exact F|]. split; [exact R|].
  destruct (feed_returns (SerialHandler._decoder self) (List.concat chunks))
    as (b' & out' & F' & Hw' & _).
  rewrite F' in F. injection F as <- _. exact Hw'.
Qed.

Lemma reads_are_one_feed_witness :
  SerialHandler.connected
    (SerialHandler.mkSerialHandler (Some (SerialHandler.mkSerial true)) init 4) = true
  /\ waiting (_buffer init)
  /\ exists decoder out,
      feed init (List.concat [[x07; xc0]; []; [x3e; x00; x01; x2a]; [x2a; x2a; xc0]])
      = Returns (decoder, out)
      /\ SerialIO.read_all
           (map Returns [[x07; xc0]; []; [x3e; x00; x01; x2a]; [x2a; x2a; xc0]])
           (SerialHandler.mkSerialHandler (Some (SerialHandler.mkSerial true)) init 4)
         = (SerialHandler.mkSerialHandler (Some (SerialHandler.mkSerial true)) decoder 4,
            SerialIO.Done out)
      /\ waiting (_buffer decoder).
Proof.
  assert (H1 : SerialHandler.connected
                 (SerialHandler.mkSerialHandler
                    (Some (SerialHandler.mkSerial true)) init 4) = true)
    by reflexivity.
  assert (H2 : waiting (_buffer init)) by constructor.
  split; [exact H1|]. split; [exact H2|].
  apply (reads_are_one_feed
           [[x07; xc0]; []; [x3e; x00; x01; x2a]; [x2a; x2a; xc0]]
           (SerialHandler.mkSerialHandler (Some (SerialHandler.mkSerial true)) init 4)
           H1 H2).
Defined.

(** X11.  Round trip over the serial link.  The frames that
    [write_packet] hands to the port of one connected handler for payloads
    of at most 65535 bytes each, read at the other end by a connected
    handler with a fresh decoder, in reads of any sizes, come back as
    exactly those payloads, in order, and leave the reader's decoder
    empty. *)
Theorem written_frames_read_back (payloads : list bytes)
        (writer reader : SerialHandler.SerialHandler) :
  SerialHandler.connected writer = true ->
  SerialHandler.connected reader = true ->
  SerialHandler._decoder reader = init ->
  Forall (fun p => len p <= 65535) payloads ->
  exists calls,
    SerialIO.write_all writer payloads = (calls, SerialIO.Done tt)
    /\ List.length calls = List.length payloads
    /\ forall chunks : list bytes,
        List.concat chunks = SerialIO.wire calls ->
        SerialIO.read_all (map Returns chunks) reader
        = (reader, SerialIO.Done payloads).
Proof.
  intros Hw Hr Hd Hp.
  destruct (encode_frames_fit payloads Hp) as (stream & E).
  destruct (write_all_wire writer payloads Hw stream E) as (calls & W & L & Hwire).
  exists calls. split; [exact W|]. split; [exact L|].
  intros chunks Hc.
  destruct (read_all_feed chunks reader Hr) as (decoder & out & F & R).
  { rewrite Hd. constructor. }
  rewrite Hc, Hwire, Hd, (feed_init_frames payloads stream E) in F.
  injection F as <- <-. rewrite R, <- Hd. rewrite handler_eta. reflexivity.
Qed.

Lemma written_frames_read_back_witness :
  SerialHandler.connected
    (SerialHandler.mkSerialHandler (Some (SerialHandler.mkSerial true)) init 1) = true
  /\ SerialHandler._decoder
       (SerialHandler.mkSerialHandler (Some (SerialHandler.mkSerial true)) init 1) = init
  /\ Forall (fun p => len p <= 65535) [[xc0; x3e]; []]
  /\ exists calls,
      SerialIO.write_all
        (SerialHandler.mkSerialHandler (Some (SerialHandler.mkSerial true)) init 1)
        [[xc0; x3e]; []]
      = (calls, SerialIO.Done tt)
      /\ List.length calls = 2%nat
      /\ forall chunks : list bytes,
          List.concat chunks = SerialIO.wire calls ->
          SerialIO.read_all (map Returns chunks)
            (SerialHandler.mkSerialHandler (Some (SerialHandler.mkSerial true)) init 1)
          = (SerialHandler.mkSerialHandler (Some (SerialHandler.mkSerial true)) init 1,
             SerialIO.Done [[xc0; x3e]; []]).
Proof.
  assert (H1 : SerialHandler.connected
                 (SerialHandler.mkSerialHandler
                    (Some (SerialHandler.mkSerial true)) init 1) = true)
    by reflexivity.
  assert (H2 : SerialHandler._decoder
                 (SerialHandler.mkSerialHandler
                    (Some (SerialHandler.mkSerial true)) init 1) = init)
    by reflexivity.
  assert (H3 : Forall (fun p => len p <= 65535) [[xc0; x3e]; []])
    by (repeat constructor; unfold len; simpl; lia).
  split; [exact H1|]. split; [exact H2|]. split; [exact H3|].
  apply (written_frames_read_back [[xc0; x3e]; []] _ _ H1 H1 H2 H3).
Defined.

(** X12.  A reconnection discards what the decoder had buffered: after a
    [try_reconnect] that succeeds, on a handler in any state, a read that
    brings the frames of payloads of at most 65535 bytes each returns
    exactly those payloads, whatever partial frame the old decoder was
    waiting on. *)
Theorem reconnect_discards_buffered_bytes (self : SerialHandler.SerialHandler)
        (payloads : list bytes) :
  Forall (fun p => len p <= 65535) payloads ->
  exists a stream,
    SerialHandler.try_reconnect true self = Returns a
    /\ SerialHandler.reconnected a = true
    /\ encode_frames payloads = Returns stream
    /\ SerialIO.read_packets (Returns stream) (SerialHandler.handler a)
       = (SerialHandler.handler a, SerialIO.Done payloads).
Proof.
  intros Hp. destruct (encode_frames_fit payloads Hp) as (stream & E).
  eexists. exists stream. rewrite try_reconnect_success.
  split; [reflexivity|]. split; [reflexivity|]. split; [exact E|].
  cbn [SerialHandler.handler]. unfold SerialIO.read_packets. cbn [SerialHandler.connected
    SerialHandler._port SerialHandler.is_open negb SerialHandler._decoder].
  destruct stream as [|x stream].
  - destruct payloads as [|p payloads]; [reflexivity|].
    exfalso. simpl in E.
    destruct (encode_frame p) as [frame| |] eqn:Ep; try discriminate E.
    destruct (encode_frame_inv p frame Ep) as (hi & lo & ch & cl & -> & _).
    simpl in E. destruct (encode_frames payloads); discriminate E.
  - rewrite (feed_init_frames payloads (x :: stream) E). reflexivity.
Qed.

Lemma reconnect_discards_buffered_bytes_witness :
  Forall (fun p => len p <= 65535) [[x2a]]
  /\ exists a stream,
      SerialHandler.try_reconnect true
        (SerialHandler.mkSerialHandler (Some (SerialHandler.mkSerial true))
           (mkFrameDecoder [xc0; x3e; xff; xff; x01]) 1)
      = Returns a
      /\ SerialHandler.reconnected a = true
      /\ encode_frames [[x2a]] = Returns stream
      /\ SerialIO.read_packets (Returns stream) (SerialHandler.handler a)
         = (SerialHandler.handler a, SerialIO.Done [[x2a]]).
Proof.
  assert (H : Forall (fun p => len p <= 65535) [[x2a]])
    by (repeat constructor; unfold len; simpl; lia).
  split; [exact H|].
  apply (reconnect_discards_buffered_bytes _ [[x2a]] H).
Defined.

(** ** Topics and the broker side *)

Section Topics.

Import MqttHandler MqttLink.

Lemma has_char_app (a b : string) (c : ascii) :
  has_char (a ++ b) c = has_char a c || has_char b c.
Proof.
  induction a as [|x a IH]; simpl; [reflexivity|].
  rewrite IH. apply orb_assoc.
Qed.

Lemma split_segments (s : string) (sep : ascii) :
  Forall (fun seg => has_char seg sep = false) (split s sep).
Proof.
  induction s as [|c s IH]; simpl.
  - constructor; [reflexivity | constructor].
  - destruct (Ascii.eqb c sep) eqn:Ec.
    + constructor; [reflexivity | exact IH].
    + destruct (split s sep) as [|hd tl]; inversion IH; subst.
      * constructor; [simpl; rewrite Ec; reflexivity | constructor].
      * constructor; [simpl; rewrite Ec; assumption | assumption].
Qed.

Lemma split_with_sep (s : string) (sep : ascii) :
  has_char s sep = true -> 2 <= len (split s sep).
Proof.
  induction s as [|c s IH]; simpl; [discriminate|].
  destruct (Ascii.eqb c sep); simpl.
  - intros _. rewrite len_cons.
    destruct (split s sep) eqn:E; [|rewrite len_cons; lia].
    destruct s; simpl in E; [discriminate E|].
    destruct (Ascii.eqb a sep); [discriminate E|].
    destruct (split s sep); discriminate E.
  - intros H. specialize (IH H).
    destruct (split s sep) as [|hd tl]; [rewrite len_nil in IH; lia|].
    rewrite len_cons in *. exact IH.
Qed.

Lemma getlast_in {A : Type} (l : list A) (a : A) :
  getlast l = Returns a -> In a l.
Proof.
  unfold getlast. intros E. apply in_rev.
  destruct (rev l) as [|x tl]; [discriminate E|].
  injection E as ->. left. reflexivity.
Qed.

Lemma getlast_split (s : string) (sep : ascii) :
  exists seg, getlast (split s sep) = Returns seg /\ has_char seg sep = false.
Proof.
  pose proof (split_segments s sep) as Hf.
  assert (Hne : split s sep <> []).
  { destruct s; simpl; [discriminate|].
    destruct (Ascii.eqb a sep); [discriminate|].
    destruct (split s sep); discriminate. }
  unfold getlast.
  destruct (rev (split s sep)) as [|seg tl] eqn:E.
  - exfalso. apply Hne. rewrite <- (rev_involutive (split s sep)), E. reflexivity.
  - exists seg. split; [reflexivity|].
    rewrite Forall_forall in Hf. apply Hf. apply in_rev. rewrite E. left. reflexivity.
Qed.

Lemma rx_topic_has_sep (self : MqttHandler) : has_char (_rx_topic self) "/" = true.
Proof.
  unfold _rx_topic. rewrite has_char_app. simpl. apply orb_true_r.
Qed.

(** What the handler does with a message from another identity whose
    payload decodes. *)
Lemma handle_foreign (b64decode : bytes -> result bytes) (self : MqttHandler)
      (msg : MQTTMessage) (source : string) (packet : bytes) :
  has_char (topic msg) "/" = true ->
  getlast (split (topic msg) "/") = Returns source ->
  source <> _mesh_id self ->
  b64decode (payload msg) = Returns packet ->
  _handle_message b64decode self msg
  = Returns [LogDebug source (len packet); OnPacket packet].
Proof.
  intros Ht Hs Hne Hd. unfold _handle_message.
  pose proof (split_with_sep (topic msg) "/" Ht) as H2.
  apply N.ltb_ge in H2. rewrite H2, Hs. simpl bind.
  apply String.eqb_neq in Hne. rewrite Hne, Hd. reflexivity.
Qed.

Lemma callbacks_app (e1 e2 : list callback) (self : MqttHandler) :
  callbacks (e1 ++ e2) self
  = (fst (callbacks e2 (fst (callbacks e1 self))),
     snd (callbacks e1 self) ++ snd (callbacks e2 (fst (callbacks e1 self)))).
Proof.
  revert self. induction e1 as [|[rc|rc] e1 IH]; intros self; simpl.
  - destruct (callbacks e2 self). reflexivity.
  - rewrite IH. simpl. rewrite app_assoc. reflexivity.
  - apply IH.
Qed.

End Topics.

(** X13.  No feedback loop: when the mesh identity contains no [/], what
    a connected bridge publishes for a packet, delivered back to the same
    bridge (it subscribes to its own topic through the wildcard), is
    recognised as its own and has no effect at all, whatever the
    decoder. *)
Theorem own_publication_suppressed (b64encode : bytes -> bytes)
        (b64decode : bytes -> result bytes)
        (self : MqttHandler.MqttHandler) (packet : bytes) :
  has_char (MqttHandler._mesh_id self) "/" = false ->
  MqttHandler._connected self = true ->
  exists topic message,
    MqttLink.publish_packet b64encode self packet = [MqttLink.Publish topic message]
    /\ MqttHandler._handle_message b64decode self (MqttHandler.mkMessage topic message)
       = Returns [].
Proof.
  intros Hid Hc. exists (MqttHandler._rx_topic self), (b64encode packet).
  unfold MqttLink.publish_packet. rewrite Hc. split; [reflexivity|].
  apply handle_own_message. apply rx_topic_identity. exact Hid.
Qed.

Lemma own_publication_suppressed_witness :
  has_char "alpha" "/" = false
  /\ exists topic message,
      MqttLink.publish_packet b64encode_std
        (MqttHandler.mkMqttHandler "meshcore" "alpha" true) [x41; x42; x43]
      = [MqttLink.Publish topic message]
      /\ MqttHandler._handle_message b64decode_strict
           (MqttHandler.mkMqttHandler "meshcore" "alpha" true)
           (MqttHandler.mkMessage topic message)
         = Returns [].
Proof.
  assert (H : has_char "alpha" "/" = false) by reflexivity.
  split; [exact H|].
  apply (own_publication_suppressed b64encode_std b64decode_strict
           (MqttHandler.mkMqttHandler "meshcore" "alpha" true) [x41; x42; x43]
           H eq_refl).
Defined.

(** X14.  The self-suppression compares the mesh identity with the last
    [/]-separated segment of the topic, so it cannot recognise an identity
    that itself contains a [/]: for such a bridge, a message on its own
    publish topic whose payload decodes is passed to [on_packet]. *)
Theorem slash_in_identity_defeats_suppression (b64decode : bytes -> result bytes)
        (self : MqttHandler.MqttHandler) (message packet : bytes) :
  has_char (MqttHandler._mesh_id self) "/" = true ->
  b64decode message = Returns packet ->
  exists source,
    MqttHandler._handle_message b64decode self
      (MqttHandler.mkMessage (MqttHandler._rx_topic self) message)
    = Returns [MqttHandler.LogDebug source (len packet); MqttHandler.OnPacket packet].
Proof.
  intros Hid Hd.
  destruct (getlast_split (MqttHandler._rx_topic self) "/") as (seg & Hs & Hseg).
  exists seg. apply handle_foreign; simpl.
  - apply rx_topic_has_sep.
  - exact Hs.
  - intros ->. rewrite Hid in Hseg. discriminate Hseg.
  - exact Hd.
Qed.

Lemma slash_in_identity_defeats_suppression_witness :
  has_char "site/alpha" "/" = true
  /\ b64decode_strict [x51; x55; x4a; x44] = Returns [x41; x42; x43]
  /\ exists source,
      MqttHandler._handle_message b64decode_strict
        (MqttHandler.mkMqttHandler "meshcore" "site/alpha" true)
        (MqttHandler.mkMessage
           (MqttHandler._rx_topic (MqttHandler.mkMqttHandler "meshcore" "site/alpha" true))
           [x51; x55; x4a; x44])
      = Returns [MqttHandler.LogDebug source (len [x41; x42; x43]);
                 MqttHandler.OnPacket [x41; x42; x43]].
Proof.
  assert (H1 : has_char "site/alpha" "/" = true) by reflexivity.
  assert (H2 : b64decode_strict [x51; x55; x4a; x44] = Returns [x41; x42; x43])
    by reflexivity.
  split; [exact H1|]. split; [exact H2|].
  apply (slash_in_identity_defeats_suppression b64decode_strict
           (MqttHandler.mkMqttHandler "meshcore" "site/alpha" true)
           [x51; x55; x4a; x44] [x41; x42; x43] H1 H2).
Defined.

(** X15.  Relay through the broker: what a connected bridge, whose
    identity has no [/], publishes for a packet makes a bridge of another
    identity call [on_packet] once, with that packet, provided the decoder
    undoes the encoder on it. *)
Theorem published_packet_reaches_other_bridge (b64encode : bytes -> bytes)
        (b64decode : bytes -> result bytes)
        (sender receiver : MqttHandler.MqttHandler) (packet : bytes) :
  MqttHandler._connected sender = true ->
  has_char (MqttHandler._mesh_id sender) "/" = false ->
  MqttHandler._mesh_id sender <> MqttHandler._mesh_id receiver ->
  b64decode (b64encode packet) = Returns packet ->
  exists topic message,
    MqttLink.publish_packet b64encode sender packet = [MqttLink.Publish topic message]
    /\ MqttHandler._handle_message b64decode receiver
         (MqttHandler.mkMessage topic message)
       = Returns [MqttHandler.LogDebug (MqttHandler._mesh_id sender) (len packet);
                  MqttHandler.OnPacket packet].
Proof.
  intros Hc Hid Hne Hd.
  exists (MqttHandler._rx_topic sender), (b64encode packet).
  unfold MqttLink.publish_packet. rewrite Hc. split; [reflexivity|].
  apply handle_foreign; simpl.
  - apply rx_topic_has_sep.
  - apply rx_topic_identity. exact Hid.
  - exact Hne.
  - exact Hd.
Qed.

Lemma published_packet_reaches_other_bridge_witness :
  has_char "alpha" "/" = false
  /\ "alpha"%string <> "beta"%string
  /\ b64decode_strict (b64encode_std [x00; xc0; x3e; xff]) = Returns [x00; xc0; x3e; xff]
  /\ exists topic message,
      MqttLink.publish_packet b64encode_std
        (MqttHandler.mkMqttHandler "meshcore" "alpha" true) [x00; xc0; x3e; xff]
      = [MqttLink.Publish topic message]
      /\ MqttHandler._handle_message b64decode_strict
           (MqttHandler.mkMqttHandler "meshcore" "beta" true)
           (MqttHandler.mkMessage topic message)
         = Returns [MqttHandler.LogDebug "alpha" (len [x00; xc0; x3e; xff]);
                    MqttHandler.OnPacket [x00; xc0; x3e; xff]].
Proof.
  assert (H1 : has_char "alpha" "/" = false) by reflexivity.
  assert (H2 : "alpha"%string <> "beta"%string) by discriminate.
  assert (H3 : b64decode_strict (b64encode_std [x00; xc0; x3e; xff])
               = Returns [x00; xc0; x3e; xff]) by reflexivity.
  split; [exact H1|]. split; [exact H2|]. split; [exact H3|].
  apply (published_packet_reaches_other_bridge b64encode_std b64decode_strict
           (MqttHandler.mkMqttHandler "meshcore" "alpha" true)
           (MqttHandler.mkMqttHandler "meshcore" "beta" true)
           [x00; xc0; x3e; xff] eq_refl H1 H2 H3).
Defined.

(** X16.  A message whose topic has no [/] is dropped without a log
    record and without decoding its payload, whoever sent it. *)
Theorem topic_without_separator_dropped (b64decode : bytes -> result bytes)
        (self : MqttHandler.MqttHandler) (msg : MqttHandler.MQTTMessage) :
  has_char (MqttHandler.topic msg) "/" = false ->
  MqttHandler._handle_message b64decode self msg = Returns [].
Proof.
  intros H. unfold MqttHandler._handle_message.
  rewrite (split_without_sep _ _ H). reflexivity.
Qed.

Lemma topic_without_separator_dropped_witness :
  has_char "beta" "/" = false
  /\ MqttHandler._handle_message b64decode_strict
       (MqttHandler.mkMqttHandler "meshcore" "alpha" true)
       (MqttHandler.mkMessage "beta" [x51; x55; x4a; x44])
     = Returns [].
Proof.
  assert (H : has_char "beta" "/" = false) by reflexivity.
  split; [exact H|].
  apply (topic_without_separator_dropped b64decode_strict
           (MqttHandler.mkMqttHandler "meshcore" "alpha" true)
           (MqttHandler.mkMessage "beta" [x51; x55; x4a; x44]) H).
Defined.

(** X17.  After any series of connection callbacks the handler has its
    topic root and identity unchanged and is connected exactly if the last
    callback reported a connection made (reason code 0); it has subscribed
    to [<root>/+] once for every such callback and made no other call; and
    [publish_packet] then publishes on [<root>/<id>] if connected and does
    nothing otherwise. *)
Theorem connection_callbacks (events : list MqttLink.callback) (e : MqttLink.callback)
        (self : MqttHandler.MqttHandler) :
  let r := MqttLink.callbacks (events ++ [e]) self in
  MqttHandler._root_topic (fst r) = MqttHandler._root_topic self
  /\ MqttHandler._mesh_id (fst r) = MqttHandler._mesh_id self
  /\ MqttHandler._connected (fst r) = successful e
  /\ snd r = repeat (MqttLink.Subscribe (MqttLink._subscribe_pattern self))
               (List.length (filter successful (events ++ [e])))
  /\ forall (b64encode : bytes -> bytes) (packet : bytes),
      MqttLink.publish_packet b64encode (fst r) packet
      = if successful e
        then [MqttLink.Publish (MqttHandler._rx_topic self) (b64encode packet)]
        else [].
Proof.
  assert (G : forall (events : list MqttLink.callback) (self : MqttHandler.MqttHandler),
             MqttHandler._root_topic (fst (MqttLink.callbacks events self))
             = MqttHandler._root_topic self
             /\ MqttHandler._mesh_id (fst (MqttLink.callbacks events self))
                = MqttHandler._mesh_id self
             /\ snd (MqttLink.callbacks events self)
                = repeat (MqttLink.Subscribe (MqttLink._subscribe_pattern self))
                    (List.length (filter successful events))).
  { clear. induction events as [|[rc|rc] events IH]; intros self.
    - simpl. auto.
    - cbn [MqttLink.callbacks filter successful].
      unfold MqttLink._handle_connect.
      destruct (rc =? 0); cbn [fst snd];
        match goal with
        | |- context [MqttLink.callbacks events ?s] =>
            destruct (IH s) as (H1 & H2 & H3); rewrite H1, H2, H3
        end; auto.
    - cbn [MqttLink.callbacks filter successful].
      destruct (IH (MqttLink._handle_disconnect self rc)) as (H1 & H2 & H3).
      rewrite H1, H2, H3. auto. }
  intros r. subst r. destruct (G (events ++ [e]) self) as (H1 & H2 & H3).
  split; [exact H1|]. split; [exact H2|].
  assert (Hc : MqttHandler._connected (fst (MqttLink.callbacks (events ++ [e]) self))
               = successful e).
  { rewrite callbacks_app. cbn [fst].
    destruct e as [rc|rc]; cbn [MqttLink.callbacks successful fst];
      [unfold MqttLink._handle_connect; destruct (rc =? 0)|]; reflexivity. }
  split; [exact Hc|]. split; [exact H3|].
  intros b64encode packet. unfold MqttLink.publish_packet. rewrite Hc.
  destruct (successful e); [|reflexivity].
  unfold MqttHandler._rx_topic. rewrite H1, H2. reflexivity.
Qed.

(** ** The bridge *)

Section Bridging.

Import SerialHandler SerialIO MqttHandler MqttLink Main.

Lemma bridge_eta (bridge : Bridge) :
  mkBridge (serial_handler bridge) (mqtt_handler bridge) = bridge.
Proof. destruct bridge. reflexivity. Qed.

Lemma encode_frames_empty (payloads : list bytes) :
  encode_frames payloads = Returns [] -> payloads = [].
Proof.
  destruct payloads as [|p payloads]; [reflexivity|]. simpl. intros E. exfalso.
  destruct (encode_frame p) as [frame| |] eqn:Ep; try discriminate E.
  destruct (encode_frame_inv p frame Ep) as (hi & lo & ch & cl & -> & _).
  simpl in E. destruct (encode_frames payloads); discriminate E.
Qed.

(** A read that brings whole frames to a fresh decoder returns their
    payloads and leaves the handler as it was. *)
Lemma read_frames (self : SerialHandler) (payloads : list bytes) (stream : bytes) :
  connected self = true ->
  _decoder self = init ->
  encode_frames payloads = Returns stream ->
  read_packets (Returns stream) self = (self, Done payloads).
Proof.
  intros Hc Hd E. unfold read_packets. rewrite Hc. cbn [negb].
  destruct stream as [|x stream].
  - rewrite (encode_frames_empty payloads E). reflexivity.
  - rewrite Hd, (feed_init_frames payloads (x :: stream) E), <- Hd.
    rewrite handler_eta. reflexivity.
Qed.

Lemma write_packet_disconnected (written : result unit) (self : SerialHandler)
      (payload : bytes) :
  connected self = false -> write_packet written self payload = ([], Done tt).
Proof. intros Hc. unfold write_packet. rewrite Hc. reflexivity. Qed.

Lemma on_packet_calls_disconnected (written : result unit) (self : SerialHandler)
      (effects : list effect) :
  connected self = false -> on_packet_calls written self effects = ([], Done tt).
Proof.
  intros Hc. induction effects as [|[about|source size|packet] effects IH];
    cbn [on_packet_calls]; try exact IH; [reflexivity|].
  rewrite (write_packet_disconnected written self packet Hc), IH. reflexivity.
Qed.

(** The message handler returns unless the decoder does not. *)
Lemma handle_message_returns (b64decode : bytes -> result bytes)
      (self : MqttHandler) (msg : MQTTMessage) :
  b64decode (payload msg) <> OutOfFuel ->
  exists effects, _handle_message b64decode self msg = Returns effects.
Proof.
  intros Hd. unfold _handle_message.
  destruct (len (split (topic msg) "/") <? 2); [eexists; reflexivity|].
  destruct (getlast_split (topic msg) "/") as (seg & -> & _). simpl bind.
  destruct (String.eqb seg (_mesh_id self)); [eexists; reflexivity|].
  destruct (b64decode (payload msg)); [eexists; reflexivity ..|].
  exfalso. apply Hd. reflexivity.
Qed.

Lemma publish_each (b64encode : bytes -> bytes) (self : MqttHandler)
      (packets : list bytes) :
  flat_map (publish_packet b64encode self) packets
  = if _connected self
    then map (fun p => Publish (_rx_topic self) (b64encode p)) packets
    else [].
Proof.
  unfold publish_packet. destruct (_connected self); cbn [negb].
  - induction packets as [|p packets IH]; simpl; [reflexivity | rewrite IH; reflexivity].
  - induction packets as [|p packets IH]; simpl; [reflexivity | exact IH].
Qed.

End Bridging.

(** ** The base-64 instances *)

Section Base64.

Lemma b64_digit_char (n : N) : n < 64 -> b64_digit (b64_char n) = Some n.
Proof.
  intros H. destruct n as [|p]; [reflexivity|].
  do 6 (try destruct p as [p|p|]); try reflexivity; exfalso; lia.
Qed.

Lemma octet_to_N (n : N) (x : byte) : n mod 256 = Byte.to_N x -> octet n = x.
Proof.
  intros E. unfold octet. rewrite E, Byte.of_to_N. reflexivity.
Qed.

Ltac euclid := zify; Z.to_euclidean_division_equations; lia.

Lemma b64_round_trip_upto (n : nat) :
  forall data : bytes,
    (List.length data <= n)%nat ->
    b64decode_strict (b64encode_std data) = Returns data.
Proof.
  induction n as [|n IH]; intros data Hn.
  - destruct data; [reflexivity | simpl in Hn; lia].
  - destruct data as [|a [|b [|c rest]]]; [reflexivity| | |].
    + pose proof (to_N_lt_256 a).
      cbn [b64encode_std b64decode_strict].
      rewrite !b64_digit_char by euclid.
      change (b64_digit x3d) with (@None N).
      change (Byte.eqb x3d x3d) with true. cbn [andb].
      rewrite (octet_to_N _ a) by euclid. reflexivity.
    + pose proof (to_N_lt_256 a). pose proof (to_N_lt_256 b).
      cbn [b64encode_std b64decode_strict].
      rewrite !b64_digit_char by euclid.
      change (b64_digit x3d) with (@None N).
      change (Byte.eqb x3d x3d) with true. cbv iota.
      rewrite (octet_to_N _ a), (octet_to_N _ b) by euclid. reflexivity.
    + pose proof (to_N_lt_256 a). pose proof (to_N_lt_256 b).
      pose proof (to_N_lt_256 c).
      cbn [b64encode_std b64decode_strict].
      rewrite !b64_digit_char by euclid.
      rewrite IH by (simpl in Hn; lia). cbn [bind].
      rewrite (octet_to_N _ a), (octet_to_N _ b), (octet_to_N _ c) by euclid.
      reflexivity.
Qed.

(** The two instances agree: decoding undoes encoding. *)
Lemma b64_round_trip (data : bytes) :
  b64decode_strict (b64encode_std data) = Returns data.
Proof. apply (b64_round_trip_upto (List.length data)). apply le_n. Qed.

End Base64.

(** X18.  Broker to serial.  A message from another identity whose payload
    decodes to at most 65535 bytes, arriving while the serial port is
    open, leads to exactly one [port.write], of the frame of the decoded
    packet; if the driver raises [SerialException] on that write the
    handler still returns normally. *)
Theorem inbound_message_written (b64decode : bytes -> result bytes)
        (bridge : Main.Bridge) (msg : MqttHandler.MQTTMessage)
        (source : string) (packet : bytes) :
  has_char (MqttHandler.topic msg) "/" = true ->
  getlast (split (MqttHandler.topic msg) "/") = Returns source ->
  source <> MqttHandler._mesh_id (Main.mqtt_handler bridge) ->
  b64decode (MqttHandler.payload msg) = Returns packet ->
  len packet <= 65535 ->
  SerialHandler.connected (Main.serial_handler bridge) = true ->
  exists frame,
    encode_frame packet = Returns frame
    /\ Main.on_message b64decode (Returns tt) bridge msg
       = ([SerialIO.PortWrite frame true], SerialIO.Done tt)
    /\ Main.on_message b64decode (Raises SerialException) bridge msg
       = ([SerialIO.PortWrite frame false], SerialIO.Done tt).
Proof.
  intros Ht Hs Hne Hd Hp Hc.
  destruct (encode_frame_fits packet Hp) as (hi & lo & ch & cl & E & _).
  eexists. split; [exact E|].
  unfold Main.on_message.
  rewrite (handle_foreign b64decode _ msg source packet Ht Hs Hne Hd).
  cbn [Main.on_packet_calls]. unfold SerialIO.write_packet. rewrite Hc, E.
  split; reflexivity.
Qed.

Lemma inbound_message_written_witness :
  has_char "meshcore/beta" "/" = true
  /\ getlast (split "meshcore/beta" "/") = Returns "beta"%string
  /\ "beta"%string <> "alpha"%string
  /\ b64decode_strict [x51; x55; x4a; x44] = Returns [x41; x42; x43]
  /\ len [x41; x42; x43] <= 65535
  /\ exists frame,
      encode_frame [x41; x42; x43] = Returns frame
      /\ Main.on_message b64decode_strict (Returns tt)
           (Main.mkBridge
              (SerialHandler.mkSerialHandler (Some (SerialHandler.mkSerial true)) init 1)
              (MqttHandler.mkMqttHandler "meshcore" "alpha" true))
           (MqttHandler.mkMessage "meshcore/beta" [x51; x55; x4a; x44])
         = ([SerialIO.PortWrite frame true], SerialIO.Done tt)
      /\ Main.on_message b64decode_strict (Raises SerialException)
           (Main.mkBridge
              (SerialHandler.mkSerialHandler (Some (SerialHandler.mkSerial true)) init 1)
              (MqttHandler.mkMqttHandler "meshcore" "alpha" true))
           (MqttHandler.mkMessage "meshcore/beta" [x51; x55; x4a; x44])
         = ([SerialIO.PortWrite frame false], SerialIO.Done tt).
Proof.
  assert (H1 : has_char "meshcore/beta" "/" = true) by reflexivity.
  assert (H2 : getlast (split "meshcore/beta" "/") = Returns "beta"%string)
    by reflexivity.
  assert (H3 : "beta"%string <> "alpha"%string) by discriminate.
  assert (H4 : b64decode_strict [x51; x55; x4a; x44] = Returns [x41; x42; x43])
    by reflexivity.
  assert (H5 : len [x41; x42; x43] <= 65535) by (unfold len; simpl; lia).
  split; [exact H1|]. split; [exact H2|]. split; [exact H3|].
  split; [exact H4|]. split; [exact H5|].
  apply (inbound_message_written b64decode_strict
           (Main.mkBridge
              (SerialHandler.mkSerialHandler (Some (SerialHandler.mkSerial true)) init 1)
              (MqttHandler.mkMqttHandler "meshcore" "alpha" true))
           (MqttHandler.mkMessage "meshcore/beta" [x51; x55; x4a; x44])
           "beta" [x41; x42; x43] H1 H2 H3 H4 H5 eq_refl).
Defined.

(** X19.  The length check of the frame format is not absorbed on the way
    in: a message from another identity whose payload decodes to more than
    65535 bytes, arriving while the serial port is open, makes
    [write_packet] raise [OverflowError] before anything is written, and
    the exception leaves the message handler, whose [try] covers the
    decoding only. *)
Theorem oversized_inbound_message_raises (b64decode : bytes -> result bytes)
        (written : result unit) (bridge : Main.Bridge)
        (msg : MqttHandler.MQTTMessage) (source : string) (packet : bytes) :
  has_char (MqttHandler.topic msg) "/" = true ->
  getlast (split (MqttHandler.topic msg) "/") = Returns source ->
  source <> MqttHandler._mesh_id (Main.mqtt_handler bridge) ->
  b64decode (MqttHandler.payload msg) = Returns packet ->
  65535 < len packet ->
  SerialHandler.connected (Main.serial_handler bridge) = true ->
  Main.on_message b64decode written bridge msg
  = ([], SerialIO.Raised (SerialIO.Builtin OverflowError)).
Proof.
  intros Ht Hs Hne Hd Hp Hc. unfold Main.on_message.
  rewrite (handle_foreign b64decode _ msg source packet Ht Hs Hne Hd).
  cbn [Main.on_packet_calls]. unfold SerialIO.write_packet.
  rewrite Hc, (encode_frame_overflow packet Hp). reflexivity.
Qed.

Lemma oversized_inbound_message_raises_witness :
  has_char "meshcore/beta" "/" = true
  /\ getlast (split "meshcore/beta" "/") = Returns "beta"%string
  /\ "beta"%string <> "alpha"%string
  /\ b64decode_strict (b64encode_std (repeat x00 (N.to_nat 65536)))
     = Returns (repeat x00 (N.to_nat 65536))
  /\ 65535 < len (repeat x00 (N.to_nat 65536))
  /\ Main.on_message b64decode_strict (Returns tt)
       (Main.mkBridge
          (SerialHandler.mkSerialHandler (Some (SerialHandler.mkSerial true)) init 1)
          (MqttHandler.mkMqttHandler "meshcore" "alpha" true))
       (MqttHandler.mkMessage "meshcore/beta"
          (b64encode_std (repeat x00 (N.to_nat 65536))))
     = ([], SerialIO.Raised (SerialIO.Builtin OverflowError)).
Proof.
  assert (H1 : has_char "meshcore/beta" "/" = true) by reflexivity.
  assert (H2 : getlast (split "meshcore/beta" "/") = Returns "beta"%string)
    by reflexivity.
  assert (H3 : "beta"%string <> "alpha"%string) by discriminate.
  assert (H4 : b64decode_strict (b64encode_std (repeat x00 (N.to_nat 65536)))
               = Returns (repeat x00 (N.to_nat 65536)))
    by apply b64_round_trip.
  assert (H5 : 65535 < len (repeat x00 (N.to_nat 65536)))
    by (unfold len; rewrite repeat_length; lia).
  split; [exact H1|]. split; [exact H2|]. split; [exact H3|].
  split; [exact H4|]. split; [exact H5|].
  apply (oversized_inbound_message_raises b64decode_strict (Returns tt)
           (Main.mkBridge
              (SerialHandler.mkSerialHandler (Some (SerialHandler.mkSerial true)) init 1)
              (MqttHandler.mkMqttHandler "meshcore" "alpha" true))
           (MqttHandler.mkMessage "meshcore/beta"
              (b64encode_std (repeat x00 (N.to_nat 65536))))
           "beta" (repeat x00 (N.to_nat 65536)) H1 H2 H3 H4 H5 eq_refl).
Defined.

(** X20.  While the serial port is not open, no broker message reaches
    the port and none makes the handler raise, whatever its topic, its
    payload and the state of the driver: the packet is dropped, not
    queued, and a payload too long for a frame goes unnoticed. *)
Theorem inbound_message_dropped_when_closed (b64decode : bytes -> result bytes)
        (written : result unit) (bridge : Main.Bridge)
        (msg : MqttHandler.MQTTMessage) :
  SerialHandler.connected (Main.serial_handler bridge) = false ->
  b64decode (MqttHandler.payload msg) <> OutOfFuel ->
  Main.on_message b64decode written bridge msg = ([], SerialIO.Done tt).
Proof.
  intros Hc Hd. unfold Main.on_message.
  destruct (handle_message_returns b64decode (Main.mqtt_handler bridge) msg Hd)
    as (effects & ->).
  apply on_packet_calls_disconnected. exact Hc.
Qed.

Lemma inbound_message_dropped_when_closed_witness :
  SerialHandler.connected SerialHandler.new = false
  /\ b64decode_strict [x51; x55; x4a; x44] <> OutOfFuel
  /\ Main.on_message b64decode_strict (Returns tt)
       (Main.mkBridge SerialHandler.new
          (MqttHandler.mkMqttHandler "meshcore" "alpha" true))
       (MqttHandler.mkMessage "meshcore/beta" [x51; x55; x4a; x44])
     = ([], SerialIO.Done tt).
Proof.
  assert (H1 : SerialHandler.connected SerialHandler.new = false) by reflexivity.
  assert (H2 : b64decode_strict [x51; x55; x4a; x44] <> OutOfFuel) by discriminate.
  split; [exact H1|]. split; [exact H2|].
  apply (inbound_message_dropped_when_closed b64decode_strict (Returns tt)
           (Main.mkBridge SerialHandler.new
              (MqttHandler.mkMqttHandler "meshcore" "alpha" true))
           (MqttHandler.mkMessage "meshcore/beta" [x51; x55; x4a; x44]) H1 H2).
Defined.

(** ** Calls on the client *)

Section ClientCalls.

Import SerialIO MqttLink Main.

Variable client : client_call -> result unit.

Lemma client_calls_accepted (calls : list client_call) :
  Forall (fun c => client c = Returns tt) calls ->
  client_calls client calls = (map Client calls, Done tt).
Proof.
  induction 1 as [|c calls Hc _ IH]; [reflexivity|].
  cbn [client_calls map]. rewrite Hc, IH. reflexivity.
Qed.

Lemma client_calls_rejected (accepted rest : list client_call) (c : client_call)
      (e : exn) :
  Forall (fun c => client c = Returns tt) accepted ->
  client c = Raises e ->
  client_calls client (accepted ++ c :: rest)
  = (map Client (accepted ++ [c]), Raised (Builtin e)).
Proof.
  intros Ha Hc. induction Ha as [|a accepted Hr _ IH].
  - cbn [app client_calls map]. rewrite Hc. reflexivity.
  - cbn [app client_calls map]. rewrite Hr, IH. reflexivity.
Qed.

End ClientCalls.

(** X21.  Serial to broker.  A pass of the main loop on a bridge whose
    serial port is open and whose decoder is fresh, when the read brings
    the frames of payloads of at most 65535 bytes each and the client
    accepts the publication of each of them, publishes the encoded
    payloads on [<root>/<id>], one message per payload and in order, if the
    broker link is up; if it is not, it publishes nothing and the payloads
    are gone (the decoder has consumed the frames; nothing is queued).
    Either way the pass ends normally and the bridge is left as it was. *)
Theorem outbound_pass_publishes (b64encode : bytes -> bytes)
        (client : MqttLink.client_call -> result unit) (device : bool)
        (bridge : Main.Bridge) (payloads : list bytes) :
  SerialHandler.connected (Main.serial_handler bridge) = true ->
  SerialHandler._decoder (Main.serial_handler bridge) = init ->
  Forall (fun p => len p <= 65535) payloads ->
  Forall (fun p =>
            client (MqttLink.Publish
                      (MqttHandler._rx_topic (Main.mqtt_handler bridge))
                      (b64encode p)) = Returns tt)
         payloads ->
  exists stream,
    encode_frames payloads = Returns stream
    /\ Main.main_iteration b64encode client device (Returns stream) bridge
       = (bridge,
          if MqttHandler._connected (Main.mqtt_handler bridge)
          then map (fun p =>
                      Main.Client
                        (MqttLink.Publish
                           (MqttHandler._rx_topic (Main.mqtt_handler bridge))
                           (b64encode p)))
                   payloads
          else [],
          SerialIO.Done tt).
Proof.
  intros Hc Hd Hp Ha. destruct (encode_frames_fit payloads Hp) as (stream & E).
  exists stream. split; [exact E|].
  unfold Main.main_iteration. rewrite Hc. cbn [negb].
  rewrite (read_frames _ payloads stream Hc Hd E), bridge_eta, publish_each.
  destruct (MqttHandler._connected (Main.mqtt_handler bridge)); [|reflexivity].
  rewrite client_calls_accepted.
  - cbn [fst snd]. rewrite map_map. reflexivity.
  - apply Forall_map. exact Ha.
Qed.

Lemma outbound_pass_publishes_witness :
  Forall (fun p => len p <= 65535) [[x41; x42; x43]; [x41]]
  /\ Forall (fun p =>
               paho_client (MqttLink.Publish "meshcore/alpha" (b64encode_std p))
               = Returns tt)
            [[x41; x42; x43]; [x41]]
  /\ exists stream,
      encode_frames [[x41; x42; x43]; [x41]] = Returns stream
      /\ Main.main_iteration b64encode_std paho_client false (Returns stream)
           (Main.mkBridge
              (SerialHandler.mkSerialHandler (Some (SerialHandler.mkSerial true)) init 1)
              (MqttHandler.mkMqttHandler "meshcore" "alpha" true))
         = (Main.mkBridge
              (SerialHandler.mkSerialHandler (Some (SerialHandler.mkSerial true)) init 1)
              (MqttHandler.mkMqttHandler "meshcore" "alpha" true),
            [Main.Client (MqttLink.Publish "meshcore/alpha" [x51; x55; x4a; x44]);
             Main.Client (MqttLink.Publish "meshcore/alpha" [x51; x51; x3d; x3d])],
            SerialIO.Done tt).
Proof.
  assert (H : Forall (fun p => len p <= 65535) [[x41; x42; x43]; [x41]])
    by (repeat constructor; unfold len; simpl; lia).
  assert (Ha : Forall (fun p =>
                         paho_client
                           (MqttLink.Publish "meshcore/alpha" (b64encode_std p))
                         = Returns tt)
                      [[x41; x42; x43]; [x41]])
    by (repeat constructor).
  split; [exact H|]. split; [exact Ha|].
  apply (outbound_pass_publishes b64encode_std paho_client false
           (Main.mkBridge
              (SerialHandler.mkSerialHandler (Some (SerialHandler.mkSerial true)) init 1)
              (MqttHandler.mkMqttHandler "meshcore" "alpha" true))
           [[x41; x42; x43]; [x41]] eq_refl eq_refl H Ha).
Defined.

(** X22.  One bridge to another.  A frame read from the serial port of
    bridge A (port open, decoder fresh, broker link up, identity without
    [/]) is published by A's main loop, if the client accepts the
    publication, and that publication, handled by a bridge B of another
    identity whose port is open, puts the very same frame on B's serial
    port, for every payload of at most 65535 bytes on which the decoder
    undoes the encoder. *)
Theorem frame_crosses_bridges (b64encode : bytes -> bytes)
        (b64decode : bytes -> result bytes)
        (client : MqttLink.client_call -> result unit) (device : bool)
        (A B : Main.Bridge) (packet : bytes) :
  SerialHandler.connected (Main.serial_handler A) = true ->
  SerialHandler._decoder (Main.serial_handler A) = init ->
  MqttHandler._connected (Main.mqtt_handler A) = true ->
  has_char (MqttHandler._mesh_id (Main.mqtt_handler A)) "/" = false ->
  MqttHandler._mesh_id (Main.mqtt_handler A)
  <> MqttHandler._mesh_id (Main.mqtt_handler B) ->
  SerialHandler.connected (Main.serial_handler B) = true ->
  len packet <= 65535 ->
  b64decode (b64encode packet) = Returns packet ->
  client (MqttLink.Publish (MqttHandler._rx_topic (Main.mqtt_handler A))
            (b64encode packet)) = Returns tt ->
  exists frame topic message,
    encode_frame packet = Returns frame
    /\ Main.main_iteration b64encode client device (Returns frame) A
       = (A, [Main.Client (MqttLink.Publish topic message)], SerialIO.Done tt)
    /\ Main.on_message b64decode (Returns tt) B (MqttHandler.mkMessage topic message)
       = ([SerialIO.PortWrite frame true], SerialIO.Done tt).
Proof.
  intros HcA HdA HmA Hid Hne HcB Hp Hdec Hcl.
  destruct (encode_frame_fits packet Hp) as (hi & lo & ch & cl & E & _).
  eexists. exists (MqttHandler._rx_topic (Main.mqtt_handler A)), (b64encode packet).
  split; [exact E|]. split.
  - unfold Main.main_iteration. rewrite HcA. cbn [negb].
    rewrite (read_frames _ [packet] _ HcA HdA).
    + rewrite bridge_eta, publish_each, HmA.
      cbn [map Main.client_calls]. rewrite Hcl. reflexivity.
    + cbn [encode_frames]. rewrite E. cbn [bind]. rewrite app_nil_r. reflexivity.
  - unfold Main.on_message.
    rewrite (handle_foreign b64decode _ _
               (MqttHandler._mesh_id (Main.mqtt_handler A)) packet).
    + cbn [Main.on_packet_calls]. unfold SerialIO.write_packet.
      rewrite HcB, E. reflexivity.
    + apply rx_topic_has_sep.
    + apply rx_topic_identity. exact Hid.
    + exact Hne.
    + exact Hdec.
Qed.

Lemma frame_crosses_bridges_witness :
  has_char "alpha" "/" = false
  /\ "alpha"%string <> "beta"%string
  /\ len [xc0; x3e; x00] <= 65535
  /\ b64decode_python (b64encode_std [xc0; x3e; x00]) = Returns [xc0; x3e; x00]
  /\ paho_client (MqttLink.Publish "meshcore/alpha" (b64encode_std [xc0; x3e; x00]))
     = Returns tt
  /\ exists frame topic message,
      encode_frame [xc0; x3e; x00] = Returns frame
      /\ Main.main_iteration b64encode_std paho_client false (Returns frame)
           (Main.mkBridge
              (SerialHandler.mkSerialHandler (Some (SerialHandler.mkSerial true)) init 1)
              (MqttHandler.mkMqttHandler "meshcore" "alpha" true))
         = (Main.mkBridge
              (SerialHandler.mkSerialHandler (Some (SerialHandler.mkSerial true)) init 1)
              (MqttHandler.mkMqttHandler "meshcore" "alpha" true),
            [Main.Client (MqttLink.Publish topic message)], SerialIO.Done tt)
      /\ Main.on_message b64decode_python (Returns tt)
           (Main.mkBridge
              (SerialHandler.mkSerialHandler (Some (SerialHandler.mkSerial true)) init 8)
              (MqttHandler.mkMqttHandler "meshcore" "beta" true))
           (MqttHandler.mkMessage topic message)
         = ([SerialIO.PortWrite frame true], SerialIO.Done tt).
Proof.
  assert (H1 : has_char "alpha" "/" = false) by reflexivity.
  assert (H2 : "alpha"%string <> "beta"%string) by discriminate.
  assert (H3 : len [xc0; x3e; x00] <= 65535) by (unfold len; simpl; lia).
  assert (H4 : b64decode_python (b64encode_std [xc0; x3e; x00])
               = Returns [xc0; x3e; x00]) by reflexivity.
  assert (H5 : paho_client
                 (MqttLink.Publish "meshcore/alpha" (b64encode_std [xc0; x3e; x00]))
               = Returns tt) by reflexivity.
  split; [exact H1|]. split; [exact H2|]. split; [exact H3|].
  split; [exact H4|]. split; [exact H5|].
  apply (frame_crosses_bridges b64encode_std b64decode_python paho_client false
           (Main.mkBridge
              (SerialHandler.mkSerialHandler (Some (SerialHandler.mkSerial true)) init 1)
              (MqttHandler.mkMqttHandler "meshcore" "alpha" true))
           (Main.mkBridge
              (SerialHandler.mkSerialHandler (Some (SerialHandler.mkSerial true)) init 8)
              (MqttHandler.mkMqttHandler "meshcore" "beta" true))
           [xc0; x3e; x00] eq_refl eq_refl eq_refl H1 H2 eq_refl H3 H4 H5).
Defined.

(** X23.  While the serial port is not open a pass of the main loop
    only reconnects: it sleeps the current backoff delay, tries to open the
    port, and neither reads nor publishes; afterwards the port is open
    exactly if the attempt succeeded, the decoder is fresh and the broker
    handler is untouched. *)
Theorem closed_port_pass_reconnects (b64encode : bytes -> bytes)
        (client : MqttLink.client_call -> result unit) (device : bool)
        (incoming : result bytes) (bridge : Main.Bridge) :
  SerialHandler.connected (Main.serial_handler bridge) = false ->
  exists serial',
    Main.main_iteration b64encode client device incoming bridge
    = (Main.mkBridge serial' (Main.mqtt_handler bridge),
       [Main.Sleep (SerialHandler._reconnect_delay (Main.serial_handler bridge))],
       SerialIO.Done tt)
    /\ SerialHandler.connected serial' = device
    /\ SerialHandler._decoder serial' = init.
Proof.
  intros Hc. unfold Main.main_iteration. rewrite Hc. cbn [negb].
  destruct device;
    [rewrite try_reconnect_success | rewrite try_reconnect_failure];
    eexists; (split; [reflexivity|]); split; reflexivity.
Qed.

Lemma closed_port_pass_reconnects_witness :
  SerialHandler.connected SerialHandler.new = false
  /\ exists serial',
      Main.main_iteration b64encode_std paho_client true
        (Returns [xc0; x3e; x00; x00; x00; x00])
        (Main.mkBridge SerialHandler.new
           (MqttHandler.mkMqttHandler "meshcore" "alpha" true))
      = (Main.mkBridge serial' (MqttHandler.mkMqttHandler "meshcore" "alpha" true),
         [Main.Sleep 1], SerialIO.Done tt)
      /\ SerialHandler.connected serial' = true
      /\ SerialHandler._decoder serial' = init.
Proof.
  assert (H : SerialHandler.connected SerialHandler.new = false) by reflexivity.
  split; [exact H|].
  apply (closed_port_pass_reconnects b64encode_std paho_client true
           (Returns [xc0; x3e; x00; x00; x00; x00])
           (Main.mkBridge SerialHandler.new
              (MqttHandler.mkMqttHandler "meshcore" "alpha" true)) H).
Defined.

(** X24.  A failed read does not start a reconnection.  When the port is
    open and the read raises [SerialException], [read_packets] raises
    [SerialDisconnected] without closing the port or dropping it, the
    main loop absorbs the exception, and the pass leaves the bridge
    exactly as it found it: no sleep, no publication, the handler still
    connected with its decoder buffer kept, so that the pass after it polls
    the port again instead of calling [try_reconnect]. *)
Theorem failed_read_keeps_port (b64encode : bytes -> bytes)
        (client : MqttLink.client_call -> result unit) (device : bool)
        (bridge : Main.Bridge) :
  SerialHandler.connected (Main.serial_handler bridge) = true ->
  SerialIO.read_packets (Raises SerialException) (Main.serial_handler bridge)
  = (Main.serial_handler bridge, SerialIO.Raised SerialIO.SerialDisconnected)
  /\ Main.main_iteration b64encode client device (Raises SerialException) bridge
     = (bridge, [], SerialIO.Done tt).
Proof.
  intros Hc.
  assert (E : SerialIO.read_packets (Raises SerialException) (Main.serial_handler bridge)
              = (Main.serial_handler bridge, SerialIO.Raised SerialIO.SerialDisconnected)).
  { unfold SerialIO.read_packets. rewrite Hc. reflexivity. }
  split; [exact E|].
  unfold Main.main_iteration. rewrite Hc. cbn [negb]. rewrite E, bridge_eta.
  reflexivity.
Qed.

Lemma failed_read_keeps_port_witness :
  SerialHandler.connected
    (SerialHandler.mkSerialHandler (Some (SerialHandler.mkSerial true))
       (mkFrameDecoder [xc0; x3e]) 1) = true
  /\ SerialIO.read_packets (Raises SerialException)
       (SerialHandler.mkSerialHandler (Some (SerialHandler.mkSerial true))
          (mkFrameDecoder [xc0; x3e]) 1)
     = (SerialHandler.mkSerialHandler (Some (SerialHandler.mkSerial true))
          (mkFrameDecoder [xc0; x3e]) 1,
        SerialIO.Raised SerialIO.SerialDisconnected)
  /\ Main.main_iteration b64encode_std paho_client true (Raises SerialException)
       (Main.mkBridge
          (SerialHandler.mkSerialHandler (Some (SerialHandler.mkSerial true))
             (mkFrameDecoder [xc0; x3e]) 1)
          (MqttHandler.mkMqttHandler "meshcore" "alpha" true))
     = (Main.mkBridge
          (SerialHandler.mkSerialHandler (Some (SerialHandler.mkSerial true))
             (mkFrameDecoder [xc0; x3e]) 1)
          (MqttHandler.mkMqttHandler "meshcore" "alpha" true),
        [], SerialIO.Done tt).
Proof.
  assert (H : SerialHandler.connected
                (SerialHandler.mkSerialHandler (Some (SerialHandler.mkSerial true))
                   (mkFrameDecoder [xc0; x3e]) 1) = true) by reflexivity.
  split; [exact H|].
  apply (failed_read_keeps_port b64encode_std paho_client true
           (Main.mkBridge
              (SerialHandler.mkSerialHandler (Some (SerialHandler.mkSerial true))
                 (mkFrameDecoder [xc0; x3e]) 1)
              (MqttHandler.mkMqttHandler "meshcore" "alpha" true)) H).
Defined.

(** X25.  A publication the client refuses ends the run.  On a pass with
    the port open, a fresh decoder and the broker link up, whose read
    brings the frames of payloads of at most 65535 bytes each, if the
    client raises at the publication of one of them, the payloads before
    it have been published, none after it is, and the exception leaves the
    main loop for the [except Exception] of [run]: the [try] around the
    read and the publications absorbs [SerialDisconnected] only. *)
Theorem refused_publication_ends_pass (b64encode : bytes -> bytes)
        (client : MqttLink.client_call -> result unit) (device : bool)
        (bridge : Main.Bridge) (published rest : list bytes) (packet : bytes)
        (e : exn) :
  SerialHandler.connected (Main.serial_handler bridge) = true ->
  SerialHandler._decoder (Main.serial_handler bridge) = init ->
  MqttHandler._connected (Main.mqtt_handler bridge) = true ->
  Forall (fun p => len p <= 65535) (published ++ packet :: rest) ->
  Forall (fun p =>
            client (MqttLink.Publish
                      (MqttHandler._rx_topic (Main.mqtt_handler bridge))
                      (b64encode p)) = Returns tt)
         published ->
  client (MqttLink.Publish (MqttHandler._rx_topic (Main.mqtt_handler bridge))
            (b64encode packet)) = Raises e ->
  exists stream,
    encode_frames (published ++ packet :: rest) = Returns stream
    /\ Main.main_iteration b64encode client device (Returns stream) bridge
       = (bridge,
          map (fun p =>
                 Main.Client
                   (MqttLink.Publish
                      (MqttHandler._rx_topic (Main.mqtt_handler bridge))
                      (b64encode p)))
              (published ++ [packet]),
          SerialIO.Raised (SerialIO.Builtin e)).
Proof.
  intros Hc Hd Hm Hp Ha He.
  destruct (encode_frames_fit _ Hp) as (stream & E).
  exists stream. split; [exact E|].
  unfold Main.main_iteration. rewrite Hc. cbn [negb].
  rewrite (read_frames _ _ stream Hc Hd E), bridge_eta, publish_each, Hm.
  rewrite map_app. cbn [map].
  rewrite (client_calls_rejected client _ _ _ e).
  - cbn [fst snd]. rewrite !map_app, !map_map. reflexivity.
  - apply Forall_map. exact Ha.
  - exact He.
Qed.

Lemma refused_publication_ends_pass_witness :
  Forall (fun p => len p <= 65535) ([] ++ [x41] :: [[x42]])
  /\ paho_client (MqttLink.Publish "meshcore/a+b" (b64encode_std [x41]))
     = Raises ValueError
  /\ exists stream,
      encode_frames ([] ++ [x41] :: [[x42]]) = Returns stream
      /\ Main.main_iteration b64encode_std paho_client false (Returns stream)
           (Main.mkBridge
              (SerialHandler.mkSerialHandler (Some (SerialHandler.mkSerial true)) init 1)
              (MqttHandler.mkMqttHandler "meshcore" "a+b" true))
         = (Main.mkBridge
              (SerialHandler.mkSerialHandler (Some (SerialHandler.mkSerial true)) init 1)
              (MqttHandler.mkMqttHandler "meshcore" "a+b" true),
            [Main.Client (MqttLink.Publish "meshcore/a+b" [x51; x51; x3d; x3d])],
            SerialIO.Raised (SerialIO.Builtin ValueError)).
Proof.
  assert (H1 : Forall (fun p => len p <= 65535) ([] ++ [x41] :: [[x42]]))
    by (repeat constructor; unfold len; simpl; lia).
  assert (H2 : paho_client (MqttLink.Publish "meshcore/a+b" (b64encode_std [x41]))
               = Raises ValueError) by reflexivity.
  split; [exact H1|]. split; [exact H2|].
  apply (refused_publication_ends_pass b64encode_std paho_client false
           (Main.mkBridge
              (SerialHandler.mkSerialHandler (Some (SerialHandler.mkSerial true)) init 1)
              (MqttHandler.mkMqttHandler "meshcore" "a+b" true))
           [] [[x42]] [x41] ValueError eq_refl eq_refl eq_refl H1
           (Forall_nil _) H2).
Defined.
